(** * The training script [buildings-example/train.py], embedded in Rocq

    The script trains a binary classifier epoch by epoch, keeps the lowest
    validation loss seen so far together with the metrics of that epoch, and
    saves the model when the current epoch is the best one.

    The embedding follows the script statement by statement.  Python's [float]
    is IEEE 754 binary64: it is modelled by [spec_float] with the operations of
    [SpecFloat] at precision 53.  The same script is also read over the real
    numbers, where the statements about means and ranges are exact.  What the
    script imports (torch, sklearn, yaml, the openmapflow helpers) is a class
    of externals, over which every statement about the loop is quantified. *)

From Stdlib Require Import ZArith List Lia Bool String Permutation.
From Stdlib Require Import Floats.SpecFloat.
From Stdlib Require Import Reals Lra.
From stdpp Require Import gmap strings.
Import ListNotations.

Local Open Scope nat_scope.

(** ** Exceptions *)

(** A Python statement either completes or raises; an uncaught exception ends
    the script. *)
Inductive exn : Set :=
| ZeroDivisionError
| ValueError
| IndexError
| RuntimeError.

Inductive result (A : Type) : Type :=
| Ok (a : A)
| Raise (e : exn).
Arguments Ok {A} a.
Arguments Raise {A} e.

#[export] Instance result_ret : MRet result := fun _ a => Ok a.
#[export] Instance result_bind : MBind result := fun _ _ f r =>
  match r with
  | Ok a => f a
  | Raise e => Raise e
  end.

Definition completes {A} (r : result A) : Prop := exists a, r = Ok a.

(** Two outcomes that raise the same exception or complete in related
    states. *)
Definition result_rel {A} (R : A -> A -> Prop) (r1 r2 : result A) : Prop :=
  match r1, r2 with
  | Ok a1, Ok a2 => R a1 a2
  | Raise e1, Raise e2 => e1 = e2
  | _, _ => False
  end.

(** [for x in xs: s = body(x, s)], stopping at the first exception. *)
Fixpoint for_each {A S : Type} (body : A -> S -> result S) (xs : list A) (s : S)
  : result S :=
  match xs with
  | [] => Ok s
  | x :: rest => s' ← body x s; for_each body rest s'
  end.

(** ** Numbers *)

(** The arithmetic the script performs on losses and scores. *)
Class Scalar (F : Type) : Type := {
  fzero : F;                 (* the literal 0.0 *)
  fhalf : F;                 (* the literal 0.5 *)
  fscale : F;                (* the literal 1e-4 *)
  fadd : F -> F -> F;        (* x + y *)
  fmul : F -> F -> F;        (* x * y *)
  fdiv : F -> F -> F;        (* x / y, y not zero *)
  of_int : nat -> F;         (* float(n) for n = len(...) *)
  fltb : F -> F -> bool;     (* x < y *)
  feqb : F -> F -> bool;     (* x == y *)
}.

(** Python's float. *)
Module Float64.
Definition prec : Z := 53.
Definition emax : Z := 1024.

Definition of_Z (z : Z) : spec_float := binary_normalize prec emax z 0 false.

Definition zero : spec_float := S754_zero false.
Definition one : spec_float := Eval vm_compute in of_Z 1.
Definition half : spec_float :=
    Eval vm_compute in SFdiv prec emax (of_Z 1) (of_Z 2).
  (* the double nearest to 1/10000 *)
Definition scale : spec_float :=
    Eval vm_compute in SFdiv prec emax (of_Z 1) (of_Z 10000).

Definition is_nan (x : spec_float) : bool :=
    match x with
    | S754_nan => true
    | _ => false
    end.
End Float64.

#[export] Instance binary64 : Scalar spec_float := {|
  fzero := Float64.zero;
  fhalf := Float64.half;
  fscale := Float64.scale;
  fadd := SFadd Float64.prec Float64.emax;
  fmul := SFmul Float64.prec Float64.emax;
  fdiv := SFdiv Float64.prec Float64.emax;
  of_int := fun n => Float64.of_Z (Z.of_nat n);
  fltb := SFltb;
  feqb := SFeqb;
|}.

(** The same operations without rounding, and what torch and [round]
    compute, on real numbers. *)
Module Exact.
Definition ltb (x y : R) : bool := if Rlt_dec x y then true else false.
Definition eqb (x y : R) : bool := if Req_dec_T x y then true else false.

(** [torch.sigmoid]. *)
Definition sigmoid (x : R) : R := (1 / (1 + exp (- x)))%R.

(** The logarithm as [BCELoss] takes it: never below -100. *)
Definition clamped_log (p : R) : R :=
  if Rle_dec p 0 then (-100)%R else Rmax (ln p) (-100).

(** The binary cross-entropy of one score [p] against its label [y]. *)
Definition bce (p y : R) : R :=
  (- (y * clamped_log p + (1 - y) * clamped_log (1 - p)))%R.

Definition sum (l : list R) : R := fold_right Rplus 0%R l.

Definition mean (l : list R) : R := (sum l / INR (length l))%R.

Definition in_unit (p : R) : bool :=
  if Rle_dec 0 p then (if Rle_dec p 1 then true else false) else false.

(** [torch.nn.BCELoss()], with its default reduction to the mean.  It
    refuses scores and labels of different sizes, and scores outside
    [[0, 1]]. *)
Definition BCELoss (outs labels : list R) : result R :=
  if negb (length outs =? length labels) then Raise ValueError
  else if negb (forallb in_unit outs) then Raise RuntimeError
  else Ok (mean (zip_with bce outs labels)).

(** The integer nearest to [x], the even one of two that are as near. *)
Definition round_half_even (x : R) : Z :=
  let n := Int_part x in
  let f := (x - IZR n)%R in
  if Rlt_dec f (1 / 2) then n
  else if Rlt_dec (1 / 2) f then (n + 1)%Z
  else if Z.even n then n else (n + 1)%Z.

(** [round(v, 4)]. *)
Definition round4 (v : R) : R :=
  (IZR (round_half_even (v * 10000)) / 10000)%R.

(** A number with at most four decimal places. *)
Definition four_decimals (v : R) : Prop :=
  exists n : Z, v = (IZR n / 10000)%R.
End Exact.

#[export] Instance exact : Scalar R := {|
  fzero := 0%R;
  fhalf := (1 / 2)%R;
  fscale := (1 / 10000)%R;
  fadd := Rplus;
  fmul := Rmult;
  fdiv := Rdiv;
  of_int := INR;
  fltb := Exact.ltb;
  feqb := Exact.eqb;
|}.

(** [total / len(data)]: a float divided by an int; Python raises on zero. *)
Definition div_int {F} `{Scalar F} (total : F) (n : nat) : result F :=
  match n with
  | 0 => Raise ZeroDivisionError
  | S _ => Ok (fdiv total (of_int n))
  end.

(** ** Examples and batches *)

Section Data.
Context {F : Type}.

  (** One example of the dataset: [timesteps x bands] values and a label. *)
Record Example : Type := {
    input : list (list F);
    label : F;
  }.

  (** What iterating a loader yields: [x[0]] the stacked inputs, [x[1]] the
      stacked labels. *)
Definition collate (b : list Example) : list (list (list F)) * list F :=
    (map input b, map label b).
End Data.
Arguments Example F : clear implicits.

(** [DataLoader(dataset, batch_size=b)] cuts the dataset, in order, into
    batches of [b] examples; the last one holds what is left. *)
Fixpoint chunk {A} (fuel b : nat) (l : list A) : list (list A) :=
  match fuel with
  | 0 => []
  | S fuel' =>
      match l with
      | [] => []
      | _ :: _ => firstn b l :: chunk fuel' b (skipn b l)
      end
  end.

Definition batches {A} (b : nat) (dataset : list A) : list (list A) :=
  chunk (length dataset) b dataset.

(** The constructor refuses a batch size that is not positive. *)
Definition DataLoader (batch_size : Z) : result nat :=
  if (batch_size <=? 0)%Z then Raise ValueError else Ok (Z.to_nat batch_size).

(** [train_batches = 1 + len(train_data) // batch_size], the number of
    batches the script announces to the progress bar. *)
Definition train_batches (len_data : nat) (batch_size : Z) : result Z :=
  if (batch_size =? 0)%Z then Raise ZeroDivisionError
  else Ok (1 + Z.of_nat len_data / batch_size)%Z.

Definition ceil_div (n b : nat) : nat := (n + b - 1) / b.


(** ** Gradient tracking *)

(** An operation is recorded on the tape when tracking is
    enabled and one of its operands requires a gradient; its result then
    requires a gradient too. *)
Inductive Op : Set := OpScale | OpTranspose | OpNet | OpSqueeze | OpSigmoid.

Record Autograd : Set := {
  grad_enabled : bool;
  tape : list Op;
}.

Record Tensor (A : Type) : Type := {
  data : A;
  requires_grad : bool;
}.
Arguments data {A} t.
Arguments requires_grad {A} t.

Definition set_grad_enabled (b : bool) (ag : Autograd) : Autograd :=
  {| grad_enabled := b; tape := tape ag |}.

Definition record_op (o : Op) (ag : Autograd) : Autograd :=
  {| grad_enabled := grad_enabled ag; tape := tape ag ++ [o] |}.

(** Apply [f] as operation [o]; [weights] tells whether [f] has parameters
    that require a gradient. *)
Definition apply_op {A B} (o : Op) (weights : bool) (f : A -> result B)
    (x : Tensor A) (ag : Autograd) : result (Tensor B * Autograd) :=
  y ← f (data x);
  let rg := grad_enabled ag && (requires_grad x || weights) in
  Ok ({| data := y; requires_grad := rg |}, if rg then record_op o ag else ag).

(** ** What the script imports *)

(** torch, sklearn, yaml and the openmapflow helpers are not part of the
    script.  Their functions are the fields of this class. *)
Class Externals (F : Type) : Type := {
  (* torch *)
  Model : Type;
  new_model : nat -> Model;                      (* Model().to(device) *)
  transformer :                                  (* self.model(x) *)
    Model -> bool -> list (list (list F)) -> result (list (list F));
  sigmoid : F -> F;                              (* torch.sigmoid, pointwise *)
  criterion : list F -> list F -> result F;      (* BCELoss, then loss.item() *)
  backward_step :                                (* loss.backward(); optimizer.step() *)
    F -> Model -> list Op -> list (list (list F)) -> list F -> Model;
  shuffle : nat -> list (Example F) -> list (Example F);
  (* sklearn.metrics *)
  accuracy_score : list F -> list Z -> result F;
  f1_score : list F -> list Z -> result F;
  precision_score : list F -> list Z -> result F;
  recall_score : list F -> list Z -> result F;
  roc_auc_score : list F -> list F -> result F;
  (* builtins and yaml *)
  round4 : F -> F;                               (* round(float(v), 4) *)
  yaml_dump : gmap string F -> string;
  (* openmapflow.train_utils, wandb *)
  generate_model_name : list (Example F) -> string -> string;
  model_path_from_name : string -> string;
  wandb_url : string;
}.

(** ** The model *)

(** [x.transpose(2, 1)] on one example: rows become columns. *)
Fixpoint transpose {A} (rows : list (list A)) : list (list A) :=
  match rows with
  | [] => []
  | r :: rest =>
      match rest with
      | [] => map (fun v => [v]) r
      | _ :: _ => zip_with cons r (transpose rest)
      end
  end.

(** [.squeeze(dim=1)] on a [batch x 1] tensor.  A second dimension of another
    size would be left in place, and the loss would then refuse the shape. *)
Definition squeeze_dim1 {A} (y : list (list A)) : result (list A) :=
  mapM (fun row => match row with [v] => Ok v | _ => Raise ValueError end) y.

Section Forward.
Context {F : Type} {SF : Scalar F} {X : Externals F}.

Definition rescale (x : list (list (list F))) : list (list (list F)) :=
  map (map (map (fun v => fmul v fscale))) x.

(** [Model.forward]. *)
Definition forward (m : Model) (training : bool)
    (x : Tensor (list (list (list F)))) (ag : Autograd)
  : result (Tensor (list F) * Autograd) :=
  let prev := grad_enabled ag in
  let ag := set_grad_enabled false ag in                     (* with torch.no_grad(): *)
  '(x, ag) ← apply_op OpScale false (fun v => Ok (rescale v)) x ag;
  '(x, ag) ← apply_op OpTranspose false (fun v => Ok (map transpose v)) x ag;
  let ag := set_grad_enabled prev ag in                      (* end of the scope *)
  '(x, ag) ← apply_op OpNet true (transformer m training) x ag;
  '(x, ag) ← apply_op OpSqueeze false squeeze_dim1 x ag;
  apply_op OpSigmoid false (fun v => Ok (map sigmoid v)) x ag.

End Forward.

(** ** The variables of the script *)

(** The command line, after [parser.parse_args()]. *)
Record Args (F : Type) : Type := {
  arg_model_name : string;
  arg_start_month : string;
  arg_batch_size : Z;
  arg_lr : F;
  arg_epochs : Z;
  arg_wandb : bool;
}.
Arguments arg_model_name {F} a.
Arguments arg_start_month {F} a.
Arguments arg_batch_size {F} a.
Arguments arg_lr {F} a.
Arguments arg_epochs {F} a.
Arguments arg_wandb {F} a.

(** One call of [wandb.log]. *)
Record LogEntry (F : Type) : Type := {
  log_train_loss : F;
  log_val_loss : F;
  log_val_loss_min : option F;
  log_epoch : nat;
  log_scores : list F;
}.
Arguments Build_LogEntry {F}.

Section Script.
Context {F : Type} {SF : Scalar F} {X : Externals F}.

(** The module-level variables the loop assigns, the files under the model
    path, and what was sent to wandb.  [saves] lists the epochs in which
    [sm.save] ran, latest first. *)
Record State : Type := {
  model : Model;
  lowest_validation_loss : option F;
  metrics : gmap string F;
  total_train_loss : F;
  total_val_loss : F;
  y_true : list F;
  y_score : list F;
  y_pred : list Z;
  train_loss : F;
  val_loss : F;
  disk : gmap string Model;
  saves : list nat;
  wandb_log : list (LogEntry F);
}.

Definition set_model (v : Model) (s : State) : State :=
  {| model := v; lowest_validation_loss := lowest_validation_loss s;
     metrics := metrics s; total_train_loss := total_train_loss s;
     total_val_loss := total_val_loss s; y_true := y_true s;
     y_score := y_score s; y_pred := y_pred s; train_loss := train_loss s;
     val_loss := val_loss s; disk := disk s; saves := saves s;
     wandb_log := wandb_log s |}.

Definition set_lowest_validation_loss (v : option F) (s : State) : State :=
  {| model := model s; lowest_validation_loss := v;
     metrics := metrics s; total_train_loss := total_train_loss s;
     total_val_loss := total_val_loss s; y_true := y_true s;
     y_score := y_score s; y_pred := y_pred s; train_loss := train_loss s;
     val_loss := val_loss s; disk := disk s; saves := saves s;
     wandb_log := wandb_log s |}.

Definition set_metrics (v : gmap string F) (s : State) : State :=
  {| model := model s; lowest_validation_loss := lowest_validation_loss s;
     metrics := v; total_train_loss := total_train_loss s;
     total_val_loss := total_val_loss s; y_true := y_true s;
     y_score := y_score s; y_pred := y_pred s; train_loss := train_loss s;
     val_loss := val_loss s; disk := disk s; saves := saves s;
     wandb_log := wandb_log s |}.

Definition set_total_train_loss (v : F) (s : State) : State :=
  {| model := model s; lowest_validation_loss := lowest_validation_loss s;
     metrics := metrics s; total_train_loss := v;
     total_val_loss := total_val_loss s; y_true := y_true s;
     y_score := y_score s; y_pred := y_pred s; train_loss := train_loss s;
     val_loss := val_loss s; disk := disk s; saves := saves s;
     wandb_log := wandb_log s |}.

Definition set_total_val_loss (v : F) (s : State) : State :=
  {| model := model s; lowest_validation_loss := lowest_validation_loss s;
     metrics := metrics s; total_train_loss := total_train_loss s;
     total_val_loss := v; y_true := y_true s;
     y_score := y_score s; y_pred := y_pred s; train_loss := train_loss s;
     val_loss := val_loss s; disk := disk s; saves := saves s;
     wandb_log := wandb_log s |}.

Definition set_y_true (v : list F) (s : State) : State :=
  {| model := model s; lowest_validation_loss := lowest_validation_loss s;
     metrics := metrics s; total_train_loss := total_train_loss s;
     total_val_loss := total_val_loss s; y_true := v;
     y_score := y_score s; y_pred := y_pred s; train_loss := train_loss s;
     val_loss := val_loss s; disk := disk s; saves := saves s;
     wandb_log := wandb_log s |}.

Definition set_y_score (v : list F) (s : State) : State :=
  {| model := model s; lowest_validation_loss := lowest_validation_loss s;
     metrics := metrics s; total_train_loss := total_train_loss s;
     total_val_loss := total_val_loss s; y_true := y_true s;
     y_score := v; y_pred := y_pred s; train_loss := train_loss s;
     val_loss := val_loss s; disk := disk s; saves := saves s;
     wandb_log := wandb_log s |}.

Definition set_y_pred (v : list Z) (s : State) : State :=
  {| model := model s; lowest_validation_loss := lowest_validation_loss s;
     metrics := metrics s; total_train_loss := total_train_loss s;
     total_val_loss := total_val_loss s; y_true := y_true s;
     y_score := y_score s; y_pred := v; train_loss := train_loss s;
     val_loss := val_loss s; disk := disk s; saves := saves s;
     wandb_log := wandb_log s |}.

Definition set_train_loss (v : F) (s : State) : State :=
  {| model := model s; lowest_validation_loss := lowest_validation_loss s;
     metrics := metrics s; total_train_loss := total_train_loss s;
     total_val_loss := total_val_loss s; y_true := y_true s;
     y_score := y_score s; y_pred := y_pred s; train_loss := v;
     val_loss := val_loss s; disk := disk s; saves := saves s;
     wandb_log := wandb_log s |}.

Definition set_val_loss (v : F) (s : State) : State :=
  {| model := model s; lowest_validation_loss := lowest_validation_loss s;
     metrics := metrics s; total_train_loss := total_train_loss s;
     total_val_loss := total_val_loss s; y_true := y_true s;
     y_score := y_score s; y_pred := y_pred s; train_loss := train_loss s;
     val_loss := v; disk := disk s; saves := saves s;
     wandb_log := wandb_log s |}.

Definition set_disk (v : gmap string Model) (s : State) : State :=
  {| model := model s; lowest_validation_loss := lowest_validation_loss s;
     metrics := metrics s; total_train_loss := total_train_loss s;
     total_val_loss := total_val_loss s; y_true := y_true s;
     y_score := y_score s; y_pred := y_pred s; train_loss := train_loss s;
     val_loss := val_loss s; disk := v; saves := saves s;
     wandb_log := wandb_log s |}.

Definition set_saves (v : list nat) (s : State) : State :=
  {| model := model s; lowest_validation_loss := lowest_validation_loss s;
     metrics := metrics s; total_train_loss := total_train_loss s;
     total_val_loss := total_val_loss s; y_true := y_true s;
     y_score := y_score s; y_pred := y_pred s; train_loss := train_loss s;
     val_loss := val_loss s; disk := disk s; saves := v;
     wandb_log := wandb_log s |}.

Definition set_wandb_log (v : list (LogEntry F)) (s : State) : State :=
  {| model := model s; lowest_validation_loss := lowest_validation_loss s;
     metrics := metrics s; total_train_loss := total_train_loss s;
     total_val_loss := total_val_loss s; y_true := y_true s;
     y_score := y_score s; y_pred := y_pred s; train_loss := train_loss s;
     val_loss := val_loss s; disk := disk s; saves := saves s;
     wandb_log := v |}.

(** The seven variables an epoch accumulates into or assigns before it reads
    them, set all at once. *)
Definition with_accumulators (ttl tvl : F) (yt ys : list F) (yp : list Z)
    (tl vl : F) (s : State) : State :=
  {| model := model s; lowest_validation_loss := lowest_validation_loss s;
     metrics := metrics s; total_train_loss := ttl;
     total_val_loss := tvl; y_true := yt;
     y_score := ys; y_pred := yp; train_loss := tl;
     val_loss := vl; disk := disk s; saves := saves s;
     wandb_log := wandb_log s |}.

(** The best epoch so far, and the files. *)
Definition best (s : State) : option F * gmap string F :=
  (lowest_validation_loss s, metrics s).

Definition files (s : State) : gmap string Model * list nat :=
  (disk s, saves s).

(** Two states that differ at most in the variables of the validation pass
    and in the two epoch losses. *)
Definition agree_in_training (s1 s2 : State) : Prop :=
  model s1 = model s2 /\ total_train_loss s1 = total_train_loss s2 /\
  best s1 = best s2 /\ files s1 = files s2 /\ wandb_log s1 = wandb_log s2.

(** Two states that differ at most in the two epoch losses. *)
Definition agree_in_validation (s1 s2 : State) : Prop :=
  agree_in_training s1 s2 /\ total_val_loss s1 = total_val_loss s2 /\
  y_true s1 = y_true s2 /\ y_score s1 = y_score s2 /\ y_pred s1 = y_pred s2.

(** The network returns one row for each example of the batch. *)
Definition row_per_example : Prop :=
  forall m training x y, transformer m training x = Ok y -> length y = length x.

(** ** The script *)

Variable args : Args F.
Variable train_data val_data : list (Example F).
Variable disk0 : gmap string Model.

Definition start_month : string := arg_start_month args.
Definition batch_size : Z := arg_batch_size args.
Definition wandb_enabled : bool := arg_wandb args.
Definition num_epochs : Z := arg_epochs args.
Definition lr : F := arg_lr args.

(** [if model_name == "": model_name = generate_model_name(...)]. *)
Definition model_name : string :=
  if String.eqb (arg_model_name args) EmptyString
  then generate_model_name val_data start_month
  else arg_model_name args.

(** The training loader shuffles anew in every epoch, the validation loader
    keeps the order of the dataset. *)
Definition train_dataloader (epoch : nat) : list (list (Example F)) :=
  batches (Z.to_nat batch_size) (shuffle epoch train_data).

Definition val_dataloader : list (list (Example F)) :=
  batches (Z.to_nat batch_size) val_data.

(** The body of the training loop, for one batch [x]. *)
Definition train_step (x : list (Example F)) (s : State) : result State :=
  let '(inputs, labels) := collate x in
  '(outputs, ag) ← forward (model s) true
      {| data := inputs; requires_grad := false |}
      {| grad_enabled := true; tape := [] |};
  loss ← criterion (data outputs) labels;
  let s := set_model (backward_step lr (model s) (tape ag) inputs labels) s in
  Ok (set_total_train_loss
        (fadd (total_train_loss s) (fmul loss (of_int (length inputs)))) s).

(** The score of one example under [net], as [forward] computes it. *)
Definition score_of (net : Model -> bool -> list (list F) -> F)
    (m : Model) (training : bool) (x : Example F) : F :=
  sigmoid (net m training
             (transpose (map (map (fun v => fmul v fscale)) (input x)))).

(** [(outputs > 0.5).long()], pointwise. *)
Definition threshold (o : F) : Z := if fltb fhalf o then 1%Z else 0%Z.

(** The body of the validation loop, under [torch.no_grad()]. *)
Definition val_step (x : list (Example F)) (s : State) : result State :=
  let '(inputs, labels) := collate x in
  '(outputs, _) ← forward (model s) false
      {| data := inputs; requires_grad := false |}
      {| grad_enabled := false; tape := [] |};
  loss ← criterion (data outputs) labels;
  let s := set_total_val_loss
             (fadd (total_val_loss s) (fmul loss (of_int (length inputs)))) s in
  let s := set_y_true (y_true s ++ labels) s in
  let s := set_y_score (y_score s ++ data outputs) s in
  Ok (set_y_pred (y_pred s ++ map threshold (data outputs)) s).

(** The five scores of the collected validation lists, in the order in which
    the script calls sklearn. *)
Definition scores (s : State) : result (list F) :=
  accuracy ← accuracy_score (y_true s) (y_pred s);
  f1 ← f1_score (y_true s) (y_pred s);
  precision ← precision_score (y_true s) (y_pred s);
  recall ← recall_score (y_true s) (y_pred s);
  roc_auc ← roc_auc_score (y_true s) (y_score s);
  Ok [accuracy; f1; precision; recall; roc_auc].

Definition metric_names : list string :=
  ["accuracy"; "f1"; "precision"; "recall"; "roc_auc"]%string.

(** [lowest_validation_loss is None or val_loss < lowest_validation_loss]. *)
Definition selection_rule (lowest : option F) (v : F) : bool :=
  match lowest with
  | None => true
  | Some l => fltb v l
  end.

(** Lines 181 to 190. *)
Definition update_best (s : State) : result State :=
  if selection_rule (lowest_validation_loss s) (val_loss s) then
    let s := set_lowest_validation_loss (Some (val_loss s)) s in
    vs ← scores s;
    let s := set_metrics (list_to_map (zip metric_names vs)) s in
    Ok (set_metrics (round4 <$> metrics s) s)
  else Ok s.

(** Lines 194 to 210, without the picture of the confusion matrix. *)
Definition log_to_wandb (epoch : nat) (s : State) : result State :=
  if wandb_enabled then
    vs ← scores s;
    Ok (set_wandb_log
          (wandb_log s ++
           [Build_LogEntry (train_loss s) (val_loss s)
              (lowest_validation_loss s) epoch vs]) s)
  else Ok s.

(** [lowest_validation_loss == val_loss]; [None] equals no float. *)
Definition save_condition (lowest : option F) (v : F) : bool :=
  match lowest with
  | None => false
  | Some l => feqb l v
  end.

(** Lines 213 to 218. *)
Definition save_model (epoch : nat) (s : State) : State :=
  if save_condition (lowest_validation_loss s) (val_loss s) then
    let sm := model s in
    let model_path := model_path_from_name model_name in
    let s :=
      match disk s !! model_path with
      | Some _ => set_disk (delete model_path (disk s)) s      (* unlink *)
      | None => s
      end in
    set_saves (epoch :: saves s) (set_disk (<[model_path := sm]> (disk s)) s)
  else s.

(** Lines 130 to 150: the training pass. *)
Definition training (epoch : nat) (s : State) : result State :=
  let s := set_total_train_loss fzero s in
  for_each train_step (train_dataloader epoch) s.

(** Lines 153 to 175: the validation pass. *)
Definition validation (s : State) : result State :=
  let s := set_total_val_loss fzero s in
  let s := set_y_true [] s in
  let s := set_y_score [] s in
  let s := set_y_pred [] s in
  for_each val_step val_dataloader s.

(** Lines 178 and 179. *)
Definition losses (s : State) : result State :=
  v ← div_int (total_train_loss s) (length train_data);
  let s := set_train_loss v s in
  v ← div_int (total_val_loss s) (length val_data);
  Ok (set_val_loss v s).

(** The body of [for epoch in tqdm_epoch]. *)
Definition epoch_body (epoch : nat) (s : State) : result State :=
  s ← training epoch s;
  s ← validation s;
  s ← losses s;
  s ← update_best s;
  s ← log_to_wandb epoch s;
  Ok (save_model epoch s).

(** [range(num_epochs)]. *)
Definition range (n : Z) : list nat := seq 0 (Z.to_nat n).

(** [num_timesteps, num_bands = train_data[0][0].shape]. *)
Definition first_shape : result (nat * nat) :=
  match train_data with
  | [] => Raise IndexError
  | x :: _ => Ok (length (input x), length (hd [] (input x)))
  end.

(** The variables as they stand when the loop is entered.  The accumulators
    are unbound until the first epoch assigns them; they are given the
    values of that first assignment. *)
Definition initial_state (m : Model) : State :=
  {| model := m; lowest_validation_loss := None; metrics := ∅;
     total_train_loss := fzero; total_val_loss := fzero;
     y_true := []; y_score := []; y_pred := [];
     train_loss := fzero; val_loss := fzero;
     disk := disk0; saves := []; wandb_log := [] |}.

(** The variables after the first [n] turns of the loop. *)
Definition after_epochs (n : nat) (m : Model) : result State :=
  for_each epoch_body (seq 0 n) (initial_state m).

(** The whole script: the final variables and the printed lines. *)
Definition main : result (State * list string) :=
  _ ← DataLoader batch_size;
  _ ← DataLoader batch_size;
  '(_, num_bands) ← first_shape;
  let s := initial_state (new_model num_bands) in
  _ ← train_batches (length train_data) batch_size;
  _ ← train_batches (length val_data) batch_size;
  s ← for_each epoch_body (range num_epochs) s;
  Ok (s,
      [String.append "MODEL_NAME=" model_name; yaml_dump (metrics s)] ++
      (if wandb_enabled then [String.append "Wandb url: " wandb_url] else [])).

End Script.

(** What sklearn promises of its five scores. *)
Definition scores_in_unit_interval (X : Externals R) : Prop :=
  (forall yt yp v, accuracy_score yt yp = Ok v -> 0 <= v <= 1)%R /\
  (forall yt yp v, f1_score yt yp = Ok v -> 0 <= v <= 1)%R /\
  (forall yt yp v, precision_score yt yp = Ok v -> 0 <= v <= 1)%R /\
  (forall yt yp v, recall_score yt yp = Ok v -> 0 <= v <= 1)%R /\
  (forall yt ys v, roc_auc_score yt ys = Ok v -> 0 <= v <= 1)%R.

(** A label is 0 or 1. *)
Definition binary_labels (dataset : list (Example R)) : Prop :=
  Forall (fun x => label x = 0%R \/ label x = 1%R) dataset.

(** Every example of the block has [bands] values at each timestep. *)
Definition rectangular {A} (bands : nat) (x : list (list (list A))) : Prop :=
  Forall (Forall (fun row => length row = bands)) x.

(** The network accepts every block and returns one logit for each of its
    examples. *)
Definition network_total {F} (X : Externals F) : Prop :=
  forall m training x,
    exists y, transformer m training x = Ok y /\ length y = length x /\
              Forall (fun row => length row = 1) y.

(** The network scores every example of a block on its own: [net] gives
    the logit of one (rescaled, transposed) example. *)
Definition example_wise {F} (X : Externals F)
    (net : Model -> bool -> list (list F) -> F) : Prop :=
  forall m training x,
    transformer m training x = Ok (map (fun ex => [net m training ex]) x).

(** The five scores are defined on the lists they are given. *)
Definition scores_total {F} (X : Externals F) : Prop :=
  (forall yt yp, completes (accuracy_score yt yp)) /\
  (forall yt yp, completes (f1_score yt yp)) /\
  (forall yt yp, completes (precision_score yt yp)) /\
  (forall yt yp, completes (recall_score yt yp)) /\
  (forall yt ys, completes (roc_auc_score yt ys)).

(** The shuffling loader yields the examples of the dataset, in some order. *)
Definition shuffle_permutes {F} (X : Externals F) : Prop :=
  forall epoch dataset, Permutation (shuffle epoch dataset) dataset.

(** ** A run on which every epoch has the same validation loss *)

(** A network whose logit is 0 whatever its weights are: every score is 0.5
    and the loss of every batch is the double nearest to [ln 2].  Each
    optimizer step still changes the weights, here the number of steps taken. *)
Module Demo.

Definition ln2 : spec_float := S754_finite false 6243314768165359 (-53).

#[export] Instance dead_network : Externals spec_float := {|
  Model := nat;
  new_model := fun _ => 0;
  transformer := fun _ _ x => Ok (map (fun _ => [Float64.zero]) x);
  sigmoid := fun _ => Float64.half;
  criterion := fun _ _ => Ok ln2;
  backward_step := fun _ m _ _ _ => S m;
  shuffle := fun _ l => l;
  accuracy_score := fun _ _ => Ok Float64.half;
  f1_score := fun _ _ => Ok Float64.zero;
  precision_score := fun _ _ => Ok Float64.zero;
  recall_score := fun _ _ => Ok Float64.zero;
  roc_auc_score := fun _ _ => Ok Float64.half;
  round4 := fun v => v;
  yaml_dump := fun _ => "metrics"%string;
  generate_model_name := fun _ _ => "buildings"%string;
  model_path_from_name := fun name => String.append name ".pt"%string;
  wandb_url := EmptyString;
|}.

Definition example (y : spec_float) : Example spec_float :=
  {| input := [[Float64.one]]; label := y |}.

Definition data : list (Example spec_float) :=
  [example Float64.one; example Float64.zero].

Definition args (epochs : Z) : Args spec_float :=
  {| arg_model_name := EmptyString;
     arg_start_month := "February"%string;
     arg_batch_size := 64;
     arg_lr := S754_finite false 4611686018427388 (-62);        (* 0.001 *)
     arg_epochs := epochs;
     arg_wandb := false |}.

(** The variables after the first [n] epochs. *)
Definition after (n : nat) : result State :=
  after_epochs (args 2) data data ∅ n 0.

Definition path : string := "buildings.pt"%string.

End Demo.

(** The same network over the real numbers, with the sigmoid and the loss
    of torch. *)
Module ExactDemo.

#[export] Instance constant_network : Externals R := {|
  Model := nat;
  new_model := fun _ => 0;
  transformer := fun _ _ x => Ok (map (fun _ => [0%R]) x);
  sigmoid := Exact.sigmoid;
  criterion := Exact.BCELoss;
  backward_step := fun _ m _ _ _ => S m;
  shuffle := fun _ l => l;
  accuracy_score := fun _ _ => Ok (1 / 2)%R;
  f1_score := fun _ _ => Ok 0%R;
  precision_score := fun _ _ => Ok 0%R;
  recall_score := fun _ _ => Ok 0%R;
  roc_auc_score := fun _ _ => Ok (1 / 2)%R;
  round4 := Exact.round4;
  yaml_dump := fun _ => "metrics"%string;
  generate_model_name := fun _ _ => "buildings"%string;
  model_path_from_name := fun name => String.append name ".pt"%string;
  wandb_url := EmptyString;
|}.

Definition example (y : R) : Example R :=
  {| input := [[1%R]]; label := y |}.

Definition dataset : list (Example R) := [example 1%R; example 0%R].

Definition args : Args R :=
  {| arg_model_name := EmptyString;
     arg_start_month := "February"%string;
     arg_batch_size := 64;
     arg_lr := (1 / 1000)%R;
     arg_epochs := 1;
     arg_wandb := false |}.

(** The variables when the first epoch starts. *)
Definition start : State := initial_state ∅ 0.

(** A block of one example, which requires a gradient. *)
Definition block : Tensor (list (list (list R))) :=
  {| data := [[[1%R]]]; requires_grad := true |}.

Definition tracking : Autograd := {| grad_enabled := true; tape := [] |}.

End ExactDemo.

(** * Properties *)

(** ** Exceptions *)

Lemma bind_Ok {A B} (r : result A) (f : A -> result B) (b : B) :
  r ≫= f = Ok b <-> exists a, r = Ok a /\ f a = Ok b.
Proof.
  destruct r as [a|e]; simpl; split.
  - intros Hf. exists a. split; [reflexivity | exact Hf].
  - intros (a' & Ha & Hf). injection Ha as ->. exact Hf.
  - discriminate.
  - intros (a' & Ha & _). discriminate.
Qed.

Lemma for_each_app {A S} (body : A -> S -> result S) (xs ys : list A) (s : S) :
  for_each body (xs ++ ys) s = for_each body xs s ≫= for_each body ys.
Proof.
  revert s. induction xs as [|x xs IH]; intros s; simpl; [reflexivity|].
  destruct (body x s) as [s'|e]; simpl; [apply IH | reflexivity].
Qed.

(** A property that every step keeps is kept by the loop. *)
Lemma for_each_invariant {A S} (body : A -> S -> result S) (P : S -> Prop) :
  (forall x s s', P s -> body x s = Ok s' -> P s') ->
  forall xs s s', P s -> for_each body xs s = Ok s' -> P s'.
Proof.
  intros Hstep xs. induction xs as [|x xs IH]; intros s s' HP Hrun; simpl in Hrun.
  - injection Hrun as <-. exact HP.
  - apply bind_Ok in Hrun as (s1 & H1 & H2). eauto.
Qed.

(** ** Batches *)

Lemma chunk_sizes {A} (b : nat) :
  0 < b ->
  forall (fuel : nat) (l : list A),
    length l <= fuel ->
    map (@length A) (chunk fuel b l) =
    repeat b (length l / b) ++
    (if length l mod b =? 0 then [] else [length l mod b]).
Proof.
  intros Hb fuel. induction fuel as [|fuel IH]; intros l Hfuel.
  - destruct l; [|simpl in Hfuel; lia].
    simpl. rewrite Nat.Div0.div_0_l, Nat.Div0.mod_0_l. reflexivity.
  - destruct l as [|a l'].
    + simpl. rewrite Nat.Div0.div_0_l, Nat.Div0.mod_0_l. reflexivity.
    + cbn [chunk map]. set (l := a :: l') in *.
      assert (Hn : 0 < length l) by (subst l; simpl; lia).
      rewrite IH by (rewrite length_skipn; lia).
      rewrite length_firstn, length_skipn.
      destruct (le_lt_dec b (length l)) as [Hge|Hlt].
      * rewrite Nat.min_l by lia.
        assert (Hd : length l / b = S ((length l - b) / b)).
        { replace (length l) with ((length l - b) + 1 * b) at 1 by lia.
          rewrite Nat.div_add by lia. lia. }
        assert (Hm : length l mod b = (length l - b) mod b).
        { replace (length l) with ((length l - b) + 1 * b) at 1 by lia.
          apply Nat.Div0.mod_add. }
        rewrite Hd, Hm. reflexivity.
      * rewrite Nat.min_r by lia.
        replace (length l - b) with 0 by lia.
        rewrite Nat.Div0.div_0_l, Nat.Div0.mod_0_l.
        rewrite Nat.div_small, Nat.mod_small by lia.
        destruct (Nat.eqb_spec (length l) 0); [lia | reflexivity].
Qed.

(** The sizes of the batches a loader yields: full batches, then the rest. *)
Lemma batches_sizes {A} (b : nat) (dataset : list A) :
  0 < b ->
  map (@length A) (batches b dataset) =
  repeat b (length dataset / b) ++
  (if length dataset mod b =? 0 then [] else [length dataset mod b]).
Proof. intros Hb. apply chunk_sizes; [exact Hb | lia]. Qed.

Lemma ceil_div_spec (n b : nat) :
  0 < b ->
  ceil_div n b = n / b + (if n mod b =? 0 then 0 else 1).
Proof.
  intros Hb. unfold ceil_div.
  pose proof (Nat.div_mod_eq n b) as Hn.
  pose proof (Nat.mod_upper_bound n b ltac:(lia)) as Hr.
  destruct (Nat.eqb_spec (n mod b) 0) as [H0|H0].
  - symmetry. apply (Nat.div_unique _ _ _ (b - 1)); lia.
  - symmetry. apply (Nat.div_unique _ _ _ (n mod b - 1)); lia.
Qed.

(** A loader yields [ceil(n / b)] batches. *)
Lemma batches_count {A} (b : nat) (dataset : list A) :
  0 < b -> length (batches b dataset) = ceil_div (length dataset) b.
Proof.
  intros Hb. rewrite <- (length_map (@length A)), batches_sizes by exact Hb.
  rewrite length_app, repeat_length, ceil_div_spec by exact Hb.
  destruct (length dataset mod b =? 0); reflexivity.
Qed.

Lemma chunk_concat {A} (b : nat) :
  0 < b ->
  forall (fuel : nat) (l : list A), length l <= fuel -> concat (chunk fuel b l) = l.
Proof.
  intros Hb fuel. induction fuel as [|fuel IH]; intros l Hfuel.
  - destruct l; [reflexivity | simpl in Hfuel; lia].
  - destruct l as [|a l']; [reflexivity|].
    cbn [chunk concat]. rewrite IH.
    + apply firstn_skipn.
    + rewrite length_skipn. simpl in *. lia.
Qed.

(** The batches, put end to end, are the dataset. *)
Lemma batches_concat {A} (b : nat) (dataset : list A) :
  0 < b -> concat (batches b dataset) = dataset.
Proof. intros Hb. apply chunk_concat; [exact Hb | lia]. Qed.

(** No batch is empty. *)
Lemma batches_nonempty {A} (b : nat) (dataset : list A) :
  0 < b -> Forall (fun x => 0 < length x) (batches b dataset).
Proof.
  intros Hb. apply List.Forall_forall. intros x Hx.
  apply (in_map (@length A)) in Hx. rewrite batches_sizes in Hx by exact Hb.
  apply in_app_or in Hx as [Hx|Hx].
  - apply repeat_spec in Hx. lia.
  - destruct (Nat.eqb_spec (length dataset mod b) 0); simpl in Hx; [tauto|lia].
Qed.

(** The count the script computes is the loader's count exactly when the
    batch size does not divide the size of the dataset. *)
Lemma train_batches_spec (n : nat) (b : Z) :
  (0 < b)%Z ->
  train_batches n b =
  Ok (Z.of_nat (ceil_div n (Z.to_nat b)) +
      (if (n mod Z.to_nat b =? 0)%nat then 1 else 0))%Z.
Proof.
  intros Hb. unfold train_batches.
  destruct (Z.eqb_spec b 0); [lia|]. f_equal.
  rewrite ceil_div_spec by lia.
  rewrite <- (Z2Nat.id b) at 1 by lia. rewrite <- Nat2Z.inj_div.
  destruct (n mod Z.to_nat b =? 0); lia.
Qed.

(** ** The loop *)

Section Loop.
Context {F : Type} {SF : Scalar F} {X : Externals F}.
Variable args : Args F.
Variables train_data val_data : list (Example F).
Variable disk0 : gmap string Model.


(** *** What each pass leaves alone *)

Lemma train_step_frame x s s' :
  train_step args x s = Ok s' ->
  best s' = best s /\ files s' = files s /\ wandb_log s' = wandb_log s.
Proof.
  unfold train_step. cbn [collate]. intros Hs.
  apply bind_Ok in Hs as ([outputs ag] & _ & Hs).
  apply bind_Ok in Hs as (loss & _ & Hs).
  injection Hs as <-. repeat split; reflexivity.
Qed.

Lemma val_step_frame x s s' :
  val_step x s = Ok s' ->
  best s' = best s /\ files s' = files s /\ wandb_log s' = wandb_log s /\
  model s' = model s /\ total_train_loss s' = total_train_loss s.
Proof.
  unfold val_step. cbn [collate]. intros Hs.
  apply bind_Ok in Hs as ([outputs ag] & _ & Hs).
  apply bind_Ok in Hs as (loss & _ & Hs).
  injection Hs as <-. repeat split; reflexivity.
Qed.

Lemma training_frame e s s' :
  training args train_data e s = Ok s' ->
  best s' = best s /\ files s' = files s /\ wandb_log s' = wandb_log s.
Proof.
  unfold training. intros Hs.
  eapply (for_each_invariant (train_step args)
            (fun t => best t = best s /\ files t = files s /\
                      wandb_log t = wandb_log s)); [| |exact Hs].
  - intros x t t' (Hb & Hf & Hw) Ht.
    apply train_step_frame in Ht as (Hb' & Hf' & Hw'). repeat split; congruence.
  - repeat split; reflexivity.
Qed.

Lemma validation_frame s s' :
  validation args val_data s = Ok s' ->
  best s' = best s /\ files s' = files s /\ wandb_log s' = wandb_log s /\
  model s' = model s /\ total_train_loss s' = total_train_loss s.
Proof.
  unfold validation. intros Hs.
  eapply (for_each_invariant val_step
            (fun t => best t = best s /\ files t = files s /\
                      wandb_log t = wandb_log s /\ model t = model s /\
                      total_train_loss t = total_train_loss s)); [| |exact Hs].
  - intros x t t' (Hb & Hf & Hw & Hm & Ht') Ht.
    apply val_step_frame in Ht as (? & ? & ? & ? & ?). repeat split; congruence.
  - repeat split; reflexivity.
Qed.

Lemma losses_frame s s' :
  losses train_data val_data s = Ok s' ->
  best s' = best s /\ files s' = files s /\ wandb_log s' = wandb_log s /\
  model s' = model s /\
  y_true s' = y_true s /\ y_score s' = y_score s /\ y_pred s' = y_pred s.
Proof.
  unfold losses. intros Hs.
  apply bind_Ok in Hs as (tl & _ & Hs).
  apply bind_Ok in Hs as (vl & _ & Hs).
  injection Hs as <-. repeat split; reflexivity.
Qed.

(** *** The selection rule and the saving block *)

Lemma update_best_fires s s' :
  update_best s = Ok s' ->
  selection_rule (lowest_validation_loss s) (val_loss s) = true ->
  lowest_validation_loss s' = Some (val_loss s) /\
  exists vs, scores s = Ok vs /\
             metrics s' = round4 <$> list_to_map (zip metric_names vs).
Proof.
  unfold update_best. intros Hs Hrule. rewrite Hrule in Hs.
  apply bind_Ok in Hs as (vs & Hvs & Hs). injection Hs as <-.
  split; [reflexivity|]. exists vs. split; [exact Hvs | reflexivity].
Qed.

Lemma update_best_skips s s' :
  update_best s = Ok s' ->
  selection_rule (lowest_validation_loss s) (val_loss s) = false ->
  s' = s.
Proof.
  unfold update_best. intros Hs Hrule. rewrite Hrule in Hs. congruence.
Qed.

Lemma update_best_frame s s' :
  update_best s = Ok s' ->
  files s' = files s /\ wandb_log s' = wandb_log s /\ model s' = model s /\
  val_loss s' = val_loss s /\
  y_true s' = y_true s /\ y_score s' = y_score s /\ y_pred s' = y_pred s.
Proof.
  unfold update_best. intros Hs.
  destruct (selection_rule _ _).
  - apply bind_Ok in Hs as (vs & _ & Hs). injection Hs as <-.
    repeat split; reflexivity.
  - injection Hs as <-. repeat split; reflexivity.
Qed.

Lemma log_to_wandb_frame e s s' :
  log_to_wandb args e s = Ok s' ->
  best s' = best s /\ files s' = files s /\ model s' = model s /\
  val_loss s' = val_loss s /\
  y_true s' = y_true s /\ y_score s' = y_score s /\ y_pred s' = y_pred s.
Proof.
  unfold log_to_wandb. intros Hs.
  destruct (wandb_enabled args).
  - apply bind_Ok in Hs as (vs & _ & Hs). injection Hs as <-.
    repeat split; reflexivity.
  - injection Hs as <-. repeat split; reflexivity.
Qed.

Lemma save_model_frame e s :
  best (save_model args val_data e s) = best s /\ model (save_model args val_data e s) = model s /\
  val_loss (save_model args val_data e s) = val_loss s /\
  y_true (save_model args val_data e s) = y_true s /\ y_score (save_model args val_data e s) = y_score s /\
  y_pred (save_model args val_data e s) = y_pred s.
Proof.
  unfold save_model.
  destruct (save_condition _ _); [|repeat split; reflexivity].
  destruct (disk s !! _); repeat split; reflexivity.
Qed.

Lemma save_model_saves e s :
  save_condition (lowest_validation_loss s) (val_loss s) = true ->
  saves (save_model args val_data e s) = e :: saves s /\
  disk (save_model args val_data e s) !! model_path_from_name (model_name args val_data)
  = Some (model s).
Proof.
  unfold save_model. intros ->.
  destruct (disk s !! _); cbn; (split; [reflexivity | apply lookup_insert_eq]).
Qed.

Lemma save_model_skips e s :
  save_condition (lowest_validation_loss s) (val_loss s) = false ->
  save_model args val_data e s = s.
Proof. unfold save_model. intros ->. reflexivity. Qed.

(** One epoch, stage by stage. *)
Lemma epoch_body_stages e s s' :
  epoch_body args train_data val_data e s = Ok s' ->
  exists s1 s2 s3,
    (training args train_data e s ≫= validation args val_data) ≫= losses train_data val_data = Ok s1 /\
    update_best s1 = Ok s2 /\
    log_to_wandb args e s2 = Ok s3 /\
    s' = save_model args val_data e s3 /\
    best s1 = best s /\ files s1 = files s /\ files s3 = files s /\
    best s3 = best s2 /\ val_loss s3 = val_loss s1 /\ val_loss s' = val_loss s1.
Proof.
  unfold epoch_body. intros Hs.
  apply bind_Ok in Hs as (sa & Ha & Hs).
  apply bind_Ok in Hs as (sb & Hb & Hs).
  apply bind_Ok in Hs as (s1 & H1 & Hs).
  apply bind_Ok in Hs as (s2 & H2 & Hs).
  apply bind_Ok in Hs as (s3 & H3 & Hs).
  injection Hs as <-.
  exists s1, s2, s3. rewrite Ha. cbn. rewrite Hb. cbn.
  apply training_frame in Ha as (? & ? & ?).
  apply validation_frame in Hb as (? & ? & ? & ? & ?).
  pose proof (losses_frame _ _ H1) as (? & ? & ? & ? & ? & ? & ?).
  pose proof (update_best_frame _ _ H2) as (? & ? & ? & ? & ? & ? & ?).
  pose proof (log_to_wandb_frame _ _ _ H3) as (? & ? & ? & ? & ? & ? & ?).
  pose proof (save_model_frame e s3) as (? & ? & ? & ? & ? & ?).
  repeat split; try assumption; try reflexivity; congruence.
Qed.

(** What one epoch does to the best epoch so far and to the files. *)
Lemma epoch_body_outcome e s s' :
  epoch_body args train_data val_data e s = Ok s' ->
  (selection_rule (lowest_validation_loss s) (val_loss s') = true ->
   lowest_validation_loss s' = Some (val_loss s')) /\
  (selection_rule (lowest_validation_loss s) (val_loss s') = false ->
   best s' = best s) /\
  (save_condition (lowest_validation_loss s') (val_loss s') = true ->
   saves s' = e :: saves s /\
   disk s' !! model_path_from_name (model_name args val_data) = Some (model s')) /\
  (save_condition (lowest_validation_loss s') (val_loss s') = false ->
   files s' = files s).
Proof.
  intros Hs.
  apply epoch_body_stages in Hs
    as (s1 & s2 & s3 & _ & H2 & _ & -> & Hb1 & Hf1 & Hf3 & Hb3 & Hv3 & Hv).
  pose proof (save_model_frame e s3) as (Hbs & Hms & _).
  assert (Hl1 : lowest_validation_loss s1 = lowest_validation_loss s)
    by (injection Hb1; auto).
  assert (Hls : lowest_validation_loss (save_model args val_data e s3)
                = lowest_validation_loss s3) by (injection Hbs; auto).
  assert (Hd3 : disk s3 = disk s) by (injection Hf3; auto).
  assert (Hs3 : saves s3 = saves s) by (injection Hf3; auto).
  rewrite Hv, <- Hl1, Hls, Hms, <- Hs3.
  split; [|split; [|split]].
  - intros Hrule. destruct (update_best_fires _ _ H2 Hrule) as (Hl2 & _).
    injection Hb3 as -> _. exact Hl2.
  - intros Hrule. rewrite (update_best_skips _ _ H2 Hrule) in Hb3. congruence.
  - intros Hsave. rewrite <- Hv3 in Hsave. apply (save_model_saves e s3 Hsave).
  - intros Hsave. rewrite <- Hv3 in Hsave.
    rewrite (save_model_skips e s3 Hsave). unfold files. congruence.
Qed.

(** An epoch writes at most once. *)
Lemma epoch_body_saves e s s' :
  epoch_body args train_data val_data e s = Ok s' ->
  saves s' = saves s \/ saves s' = e :: saves s.
Proof.
  intros Hs. apply epoch_body_outcome in Hs as (_ & _ & Hw & Hn).
  destruct (save_condition (lowest_validation_loss s') (val_loss s')).
  - right. apply Hw. reflexivity.
  - left. specialize (Hn eq_refl). injection Hn; auto.
Qed.

Lemma after_epochs_S n m :
  after_epochs args train_data val_data disk0 (S n) m =
  after_epochs args train_data val_data disk0 n m
    ≫= epoch_body args train_data val_data n.
Proof.
  unfold after_epochs. rewrite seq_S, for_each_app. simpl.
  destruct (for_each _ _ _) as [s|e]; simpl; [|reflexivity].
  destruct (epoch_body _ _ _ _ s); reflexivity.
Qed.

(** After [n] epochs there are at most [n] writes. *)
Lemma after_epochs_saves n m s :
  after_epochs args train_data val_data disk0 n m = Ok s ->
  length (saves s) <= n.
Proof.
  revert s. induction n as [|n IH]; intros s Hs.
  - injection Hs as <-. simpl. lia.
  - rewrite after_epochs_S in Hs. apply bind_Ok in Hs as (t & Ht & Hs).
    specialize (IH t Ht).
    apply epoch_body_saves in Hs as [-> | ->]; simpl; lia.
Qed.

(** The loop of [main] is [after_epochs]. *)
Lemma main_Ok s out :
  main args train_data val_data disk0 = Ok (s, out) ->
  exists num_bands,
    (0 < batch_size args)%Z /\ train_data <> [] /\
    after_epochs args train_data val_data disk0
      (Z.to_nat (num_epochs args)) (new_model num_bands) = Ok s /\
    out = [String.append "MODEL_NAME=" (model_name args val_data);
           yaml_dump (metrics s)] ++
          (if wandb_enabled args
           then [String.append "Wandb url: " wandb_url] else []).
Proof.
  unfold main. intros Hs.
  apply bind_Ok in Hs as (b & Hb & Hs).
  apply bind_Ok in Hs as (b' & _ & Hs).
  apply bind_Ok in Hs as ([t nb] & Hshape & Hs).
  apply bind_Ok in Hs as (tb & _ & Hs).
  apply bind_Ok in Hs as (vb & _ & Hs).
  apply bind_Ok in Hs as (s0 & Hrun & Hs).
  injection Hs as <- <-.
  exists nb. repeat split.
  - unfold DataLoader in Hb. destruct (Z.leb_spec (batch_size args) 0); [discriminate | lia].
  - intros ->. discriminate.
  - exact Hrun.
Qed.

End Loop.

(** ** Comparisons of floats *)

Lemma SFcompare_refl x : Float64.is_nan x = false -> SFcompare x x = Some Eq.
Proof.
  destruct x as [s|s| |s m e]; simpl; try discriminate; intros _.
  - reflexivity.
  - destruct s; reflexivity.
  - destruct s; rewrite Z.compare_refl, Pos.compare_cont_refl; reflexivity.
Qed.

Lemma SFeqb_refl x : Float64.is_nan x = false -> SFeqb x x = true.
Proof. intros Hx. unfold SFeqb. rewrite SFcompare_refl by exact Hx. reflexivity. Qed.

Lemma SFleb_refl x : Float64.is_nan x = false -> SFleb x x = true.
Proof. intros Hx. unfold SFleb. rewrite SFcompare_refl by exact Hx. reflexivity. Qed.

Lemma SFeqb_nan x : Float64.is_nan x = true -> SFeqb x x = false.
Proof. destruct x; simpl; try discriminate. reflexivity. Qed.

Lemma SFltb_SFleb x y : SFltb x y = true -> SFleb x y = true.
Proof. unfold SFltb, SFleb. destruct (SFcompare x y) as [[]|]; congruence. Qed.

Lemma SFltb_SFeqb x y : SFltb x y = true -> SFeqb x y = false.
Proof. unfold SFltb, SFeqb. destruct (SFcompare x y) as [[]|]; congruence. Qed.

Lemma SFltb_not_nan x y :
  SFltb x y = true -> Float64.is_nan x = false /\ Float64.is_nan y = false.
Proof. destruct x, y; simpl; try discriminate; auto. Qed.

Lemma SFcompare_swap x y :
  SFcompare y x = option_map CompOpp (SFcompare x y).
Proof.
  destruct x as [sx|sx| |sx mx ex], y as [sy|sy| |sy my ey]; simpl;
    try reflexivity; try (destruct sx; reflexivity);
    try (destruct sy; reflexivity); try (destruct sx, sy; reflexivity).
  destruct sx, sy; simpl; try reflexivity;
    rewrite (Z.compare_antisym ex ey);
    destruct (ex ?= ey)%Z; simpl; try reflexivity;
    rewrite (Pos.compare_cont_antisym mx my Eq); simpl;
    destruct (Pos.compare_cont Eq mx my); reflexivity.
Qed.

Lemma SFltb_asym x y : SFltb x y = true -> SFltb y x = false.
Proof.
  unfold SFltb. rewrite (SFcompare_swap x y).
  destruct (SFcompare x y) as [[]|]; simpl; congruence.
Qed.

(** ** Selection and saving, on floats *)

Section FloatLoop.
Context {X : Externals spec_float}.
Variable args : Args spec_float.
Variables train_data val_data : list (Example spec_float).
Variable disk0 : gmap string Model.

(** The best loss after an epoch is the loss of the epoch, if it is strictly
    lower, and the best loss before the epoch otherwise. *)
Lemma epoch_body_lowest e s s' :
  epoch_body args train_data val_data e s = Ok s' ->
  match lowest_validation_loss s with
  | None => lowest_validation_loss s' = Some (val_loss s')
  | Some b =>
      (SFltb (val_loss s') b = true /\
       lowest_validation_loss s' = Some (val_loss s')) \/
      (SFltb (val_loss s') b = false /\ best s' = best s)
  end.
Proof.
  intros Hs. apply epoch_body_outcome in Hs as (Hfire & Hskip & _).
  destruct (lowest_validation_loss s) as [b|] eqn:Hl; simpl in *.
  - destruct (SFltb (val_loss s') b); [left | right]; auto.
  - auto.
Qed.

(** A checkpoint is written exactly when the best loss after the update
    equals the loss of the epoch. *)
Lemma epoch_body_writes e s s' :
  epoch_body args train_data val_data e s = Ok s' ->
  match lowest_validation_loss s' with
  | None => False
  | Some b' =>
      if SFeqb b' (val_loss s') then saves s' = e :: saves s
      else saves s' = saves s
  end.
Proof.
  intros Hs. pose proof (epoch_body_lowest _ _ _ Hs) as Hl.
  apply epoch_body_outcome in Hs as (_ & _ & Hw & Hn).
  destruct (lowest_validation_loss s') as [b'|] eqn:Hl'; simpl in *.
  - destruct (SFeqb b' (val_loss s')).
    + apply Hw. reflexivity.
    + specialize (Hn eq_refl). injection Hn; auto.
  - destruct (lowest_validation_loss s) as [b|] eqn:Hb; [|discriminate].
    destruct Hl as [[_ Hl]|[_ Hl]]; [discriminate|].
    injection Hl as Hl _. congruence.
Qed.

(** A best loss that is not a number is never replaced. *)
Lemma epoch_body_nan e s s' b :
  epoch_body args train_data val_data e s = Ok s' ->
  lowest_validation_loss s = Some b -> Float64.is_nan b = true ->
  lowest_validation_loss s' = Some b.
Proof.
  intros Hs Hl Hb. apply epoch_body_lowest in Hs. rewrite Hl in Hs.
  destruct Hs as [[Hlt _]|[_ Hs]].
  - apply SFltb_not_nan in Hlt as [_ Hlt]. congruence.
  - injection Hs as Hs _. congruence.
Qed.

(** Once the first epoch has written, or left a best loss that is not a
    number, this stays so. *)
Lemma after_epochs_first n m s :
  after_epochs args train_data val_data disk0 (S n) m = Ok s ->
  In 0 (saves s) \/
  exists b, lowest_validation_loss s = Some b /\ Float64.is_nan b = true.
Proof.
  revert s. induction n as [|n IH]; intros s Hs.
  - unfold after_epochs in Hs. simpl in Hs.
    apply bind_Ok in Hs as (t & Ht & Hs). injection Hs as ->.
    pose proof (epoch_body_lowest _ _ _ Ht) as Hl.
    pose proof (epoch_body_writes _ _ _ Ht) as Hw.
    simpl in Hl. rewrite Hl in Hw.
    destruct (Float64.is_nan (val_loss s)) eqn:Hnan.
    + right. eauto.
    + left. rewrite SFeqb_refl in Hw by exact Hnan. rewrite Hw. left. reflexivity.
  - rewrite after_epochs_S in Hs. apply bind_Ok in Hs as (t & Ht & Hs).
    destruct (IH t Ht) as [Hin|(b & Hb & Hnan)].
    + left. apply epoch_body_saves in Hs as [-> | ->]; [|right]; exact Hin.
    + right. exists b. split; [|exact Hnan]. eapply epoch_body_nan; eauto.
Qed.

End FloatLoop.

(** ** Checkpoint writes *)

(** C1, as the script has it.  In an epoch in which the selection rule fires
    and the validation loss is a number, a checkpoint is written; in an epoch
    whose validation loss is strictly above the best so far, none is written.
    Over a whole run there are at most as many writes as epochs, and at least
    one when there is at least one epoch and the best loss reported at the
    end is a number.  (An epoch whose loss equals the best so far is left
    out.) *)
Theorem checkpoint_written_on_new_best
    (X : Externals spec_float) (args : Args spec_float)
    (train_data val_data : list (Example spec_float))
    (disk0 : gmap string Model) :
  (forall e s s',
     epoch_body args train_data val_data e s = Ok s' ->
     (selection_rule (lowest_validation_loss s) (val_loss s') = true ->
      Float64.is_nan (val_loss s') = false ->
      saves s' = e :: saves s) /\
     (forall b, lowest_validation_loss s = Some b ->
                SFltb b (val_loss s') = true ->
                saves s' = saves s)) /\
  (forall s out,
     main args train_data val_data disk0 = Ok (s, out) ->
     length (saves s) <= Z.to_nat (num_epochs args) /\
     ((0 < num_epochs args)%Z ->
      (forall b, lowest_validation_loss s = Some b -> Float64.is_nan b = false) ->
      1 <= length (saves s))).
Proof.
  split.
  - intros e s s' Hs.
    pose proof (epoch_body_lowest _ _ _ _ _ _ Hs) as Hl.
    pose proof (epoch_body_writes _ _ _ _ _ _ Hs) as Hw.
    split.
    + intros Hrule Hnan.
      apply epoch_body_outcome in Hs as (Hfire & _). rewrite (Hfire Hrule) in Hw.
      rewrite SFeqb_refl in Hw by exact Hnan. exact Hw.
    + intros b Hb Hgt. rewrite Hb in Hl.
      pose proof (SFltb_asym _ _ Hgt) as Hnlt.
      destruct Hl as [[Hlt _]|[_ Hbest]]; [congruence|].
      injection Hbest as Hbest _. rewrite Hbest, Hb in Hw.
      rewrite (SFltb_SFeqb _ _ Hgt) in Hw. exact Hw.
  - intros s out Hmain.
    apply main_Ok in Hmain as (nb & _ & _ & Hrun & _).
    split; [eapply after_epochs_saves; exact Hrun|].
    intros Hpos Hnan.
    destruct (Z.to_nat (num_epochs args)) as [|n] eqn:Hn; [lia|].
    apply after_epochs_first in Hrun as [Hin|(b & Hb & Hb')].
    + destruct (saves s); [destruct Hin | simpl; lia].
    + rewrite (Hnan b Hb) in Hb'. discriminate.
Qed.

Lemma checkpoint_written_on_new_best_witness :
  match main (X := Demo.dead_network) (Demo.args 2) Demo.data Demo.data ∅ with
  | Ok (s, _) => 1 <= length (saves s) <= 2
  | Raise _ => False
  end.
Proof.
  pose proof (checkpoint_written_on_new_best
                Demo.dead_network (Demo.args 2) Demo.data Demo.data ∅) as [_ Hrun].
  destruct (main (Demo.args 2) Demo.data Demo.data ∅) as [[s out]|e] eqn:Hmain;
    [|vm_compute in Hmain; discriminate].
  destruct (Hrun s out eq_refl) as [Hle Hge].
  split; [|exact Hle].
  apply Hge; [reflexivity|].
  intros b Hb. vm_compute in Hmain. injection Hmain as <- _.
  vm_compute in Hb. injection Hb as <-. reflexivity.
Defined.

(** C1, as the spec has it, fails twice.  In the second epoch of the run of
    [Demo] the validation loss equals the best so far, the selection rule
    does not fire, and a checkpoint is written all the same.  A run of no
    epochs writes no checkpoint. *)
Lemma tie_writes_checkpoint :
  (exists s s',
     Demo.after 1 = Ok s /\
     epoch_body (X := Demo.dead_network) (Demo.args 2) Demo.data Demo.data 1 s = Ok s' /\
     lowest_validation_loss s = Some Demo.ln2 /\
     val_loss s' = Demo.ln2 /\
     selection_rule (lowest_validation_loss s) (val_loss s') = false /\
     saves s = [0] /\ saves s' = [1; 0]) /\
  (exists s out,
     main (X := Demo.dead_network) (Demo.args 0) Demo.data Demo.data ∅ = Ok (s, out) /\
     num_epochs (Demo.args 0) = 0%Z /\
     saves s = []).
Proof.
  split.
  - eexists _, _. split; [vm_compute; reflexivity|].
    split; [vm_compute; reflexivity|].
    repeat split; reflexivity.
  - eexists _, _. split; [vm_compute; reflexivity|].
    split; reflexivity.
Qed.

(** ** The best loss over the epochs *)

Lemma after_epochs_lowest (X : Externals spec_float) args train_data val_data
    disk0 n m s :
  after_epochs args train_data val_data disk0 (S n) m = Ok s ->
  exists b, lowest_validation_loss s = Some b.
Proof.
  rewrite after_epochs_S. intros Hs. apply bind_Ok in Hs as (t & _ & Hs).
  apply epoch_body_lowest in Hs.
  destruct (lowest_validation_loss t) as [b|] eqn:Ht.
  - destruct Hs as [[_ Hs]|[_ Hs]]; [eauto|].
    injection Hs as Hs _. exists b. congruence.
  - eauto.
Qed.

(** C2.  The first epoch sets the best validation loss to its own loss.
    After every later epoch the best loss is the one before, or one strictly
    below it; so it is at most the one before, whenever that one is a
    number. *)
Theorem lowest_validation_loss_non_increasing
    (X : Externals spec_float) (args : Args spec_float)
    (train_data val_data : list (Example spec_float))
    (disk0 : gmap string Model) (m : Model) (i : nat) (s s' : State) :
  after_epochs args train_data val_data disk0 i m = Ok s ->
  after_epochs args train_data val_data disk0 (S i) m = Ok s' ->
  match i with
  | 0 =>
      lowest_validation_loss s = None /\
      lowest_validation_loss s' = Some (val_loss s')
  | S _ =>
      exists b b',
        lowest_validation_loss s = Some b /\
        lowest_validation_loss s' = Some b' /\
        (b' = b \/ SFltb b' b = true) /\
        (Float64.is_nan b = false -> SFleb b' b = true)
  end.
Proof.
  intros Hs Hs'. rewrite after_epochs_S, Hs in Hs'. simpl in Hs'.
  apply epoch_body_lowest in Hs'.
  destruct i as [|i].
  - injection Hs as <-. simpl in Hs'. split; [reflexivity | exact Hs'].
  - apply after_epochs_lowest in Hs as [b Hb]. rewrite Hb in Hs'.
    exists b. destruct Hs' as [[Hlt Hl]|[_ Hl]].
    + exists (val_loss s'). repeat split; auto using SFltb_SFleb.
    + injection Hl as Hl _. exists b. rewrite Hl.
      repeat split; auto using SFleb_refl.
Qed.

Lemma lowest_validation_loss_non_increasing_witness :
  match after_epochs (X := Demo.dead_network) (Demo.args 2) Demo.data Demo.data ∅ 1 0,
        after_epochs (X := Demo.dead_network) (Demo.args 2) Demo.data Demo.data ∅ 2 0
  with
  | Ok s, Ok s' =>
      exists b b',
        lowest_validation_loss s = Some b /\
        lowest_validation_loss s' = Some b' /\
        (b' = b \/ SFltb b' b = true) /\
        (Float64.is_nan b = false -> SFleb b' b = true)
  | _, _ => False
  end.
Proof.
  destruct (after_epochs (X := Demo.dead_network) (Demo.args 2) Demo.data Demo.data ∅ 1 0)
    as [s|e] eqn:H1; [|vm_compute in H1; discriminate].
  destruct (after_epochs (X := Demo.dead_network) (Demo.args 2) Demo.data Demo.data ∅ 2 0)
    as [s'|e] eqn:H2; [|vm_compute in H2; discriminate].
  exact (lowest_validation_loss_non_increasing
           Demo.dead_network (Demo.args 2) Demo.data Demo.data ∅ 0 1 s s' H1 H2).
Defined.

(** C5, on the run of [Demo].  In its second epoch the selection rule does
    not fire and the best loss and metrics stay as they were, but the file
    under the model path is replaced: it held the weights after one
    optimizer step and now holds those after two. *)
Theorem tie_overwrites_checkpoint :
  exists s s',
    Demo.after 1 = Ok s /\
    epoch_body (X := Demo.dead_network) (Demo.args 2) Demo.data Demo.data 1 s = Ok s' /\
    selection_rule (lowest_validation_loss s) (val_loss s') = false /\
    best s' = best s /\
    disk s !! Demo.path = Some 1 /\
    disk s' !! Demo.path = Some 2.
Proof.
  eexists _, _. split; [vm_compute; reflexivity|].
  split; [vm_compute; reflexivity|].
  repeat split; vm_compute; reflexivity.
Qed.

(** ** Batch counts *)


(** The two scenarios of the spec, on which the script's count is right. *)
Example batches_130_64 :
  map (@length nat) (batches 64 (seq 0 130)) = [64; 64; 2] /\
  train_batches 130 64 = Ok 3%Z.
Proof. split; vm_compute; reflexivity. Qed.

Example batches_50_64 :
  map (@length nat) (batches 64 (seq 0 50)) = [50] /\
  train_batches 50 64 = Ok 1%Z.
Proof. split; vm_compute; reflexivity. Qed.

(** ** A run without epochs *)

(** C10.  With [--epochs 0], a positive batch size and a training set that
    is not empty, the script completes; the loop body never runs: nothing is
    written, the best loss stays unset, the metrics stay empty, and the
    script prints the name of the model and then the dump of the empty
    metrics. *)
Theorem no_epochs
    {F : Type} {SF : Scalar F} {X : Externals F} (args : Args F)
    (train_data val_data : list (Example F)) (disk0 : gmap string Model) :
  num_epochs args = 0%Z ->
  (0 < batch_size args)%Z ->
  train_data <> [] ->
  exists s out,
    main args train_data val_data disk0 = Ok (s, out) /\
    saves s = [] /\ disk s = disk0 /\
    lowest_validation_loss s = None /\ metrics s = ∅ /\
    out = [String.append "MODEL_NAME=" (model_name args val_data);
           yaml_dump (∅ : gmap string F)] ++
          (if wandb_enabled args
           then [String.append "Wandb url: " wandb_url] else []).
Proof.
  intros Hn Hb Hd. unfold main, range, DataLoader, train_batches, first_shape.
  rewrite Hn. destruct (Z.leb_spec (batch_size args) 0); [lia|].
  destruct (Z.eqb_spec (batch_size args) 0); [lia|].
  destruct train_data as [|x rest]; [congruence|]. simpl.
  eexists _, _. split; [reflexivity|]. repeat split; reflexivity.
Qed.

Lemma no_epochs_witness :
  exists s out,
    main (X := Demo.dead_network) (Demo.args 0) Demo.data Demo.data ∅ = Ok (s, out) /\
    saves s = [] /\ lowest_validation_loss s = None /\ metrics s = ∅.
Proof.
  destruct (no_epochs (X := Demo.dead_network) (Demo.args 0) Demo.data Demo.data ∅)
    as (s & out & Hmain & Hsaves & _ & Hl & Hm & _).
  - reflexivity.
  - reflexivity.
  - discriminate.
  - exists s, out. auto.
Defined.

(** ** The model on a batch *)

Lemma squeeze_dim1_length {A} (y : list (list A)) (z : list A) :
  squeeze_dim1 y = Ok z -> length z = length y.
Proof.
  revert z. induction y as [|row y IH]; intros z Hz.
  - injection Hz as <-. reflexivity.
  - unfold squeeze_dim1 in Hz. cbn [mapM] in Hz.
    apply bind_Ok in Hz as (v & _ & Hz).
    apply bind_Ok in Hz as (k & Hk & Hz).
    injection Hz as <-. simpl. f_equal. apply IH. exact Hk.
Qed.

Lemma apply_op_Ok {A B} o weights (f : A -> result B) x ag t ag' :
  apply_op o weights f x ag = Ok (t, ag') ->
  f (data x) = Ok (data t) /\
  requires_grad t = grad_enabled ag && (requires_grad x || weights) /\
  ag' = (if requires_grad t then record_op o ag else ag).
Proof.
  unfold apply_op. intros H. apply bind_Ok in H as (y & Hy & H).
  injection H as <- <-. auto.
Qed.

Section ForwardFacts.
Context {F : Type} {SF : Scalar F} {X : Externals F}.

(** The scores are the sigmoid of the squeezed logits of the network, run on
    the rescaled and transposed inputs. *)
Lemma forward_data m training x ag out ag' :
  forward m training x ag = Ok (out, ag') ->
  exists y z,
    transformer m training (map transpose (rescale (data x))) = Ok y /\
    squeeze_dim1 y = Ok z /\
    data out = map sigmoid z.
Proof.
  unfold forward. intros H.
  apply bind_Ok in H as ([x1 ag1] & H1 & H).
  apply bind_Ok in H as ([x2 ag2] & H2 & H).
  apply bind_Ok in H as ([x3 ag3] & H3 & H).
  apply bind_Ok in H as ([x4 ag4] & H4 & H).
  apply apply_op_Ok in H1 as (H1 & _), H2 as (H2 & _), H3 as (H3 & _),
    H4 as (H4 & _), H as (H & _).
  injection H1 as H1. injection H2 as H2. injection H as H.
  exists (data x3), (data x4). rewrite H1, H2. auto.
Qed.

Lemma forward_length m training x ag out ag' :
  row_per_example ->
  forward m training x ag = Ok (out, ag') ->
  length (data out) = length (data x).
Proof.
  intros Hrows H. apply forward_data in H as (y & z & Hy & Hz & ->).
  rewrite length_map, (squeeze_dim1_length _ _ Hz), (Hrows _ _ _ _ Hy).
  unfold rescale. rewrite !length_map. reflexivity.
Qed.

End ForwardFacts.

(** ** The validation pass *)

Section Validation.
Context {F : Type} {SF : Scalar F} {X : Externals F}.
Variable args : Args F.
Variables train_data val_data : list (Example F).

(** One batch adds its labels, its scores and their thresholds. *)
Lemma val_step_collects x s s' :
  val_step x s = Ok s' ->
  exists outs loss,
    criterion outs (map label x) = Ok loss /\
    (row_per_example -> length outs = length x) /\
    total_val_loss s' =
      fadd (total_val_loss s) (fmul loss (of_int (length (map input x)))) /\
    y_true s' = y_true s ++ map label x /\
    y_score s' = y_score s ++ outs /\
    y_pred s' = y_pred s ++ map threshold outs.
Proof.
  unfold val_step. cbn [collate]. intros Hs.
  apply bind_Ok in Hs as ([outputs ag] & Hf & Hs).
  apply bind_Ok in Hs as (loss & Hc & Hs).
  injection Hs as <-. exists (data outputs), loss. repeat split; try assumption.
  intros Hrows. rewrite (forward_length _ _ _ _ _ _ Hrows Hf). apply length_map.
Qed.

Lemma val_loop_collects bs s s' :
  for_each val_step bs s = Ok s' ->
  y_true s' = y_true s ++ map label (concat bs) /\
  (y_pred s = map threshold (y_score s) ->
   y_pred s' = map threshold (y_score s')) /\
  (row_per_example ->
   length (y_score s') = length (y_score s) + length (concat bs)).
Proof.
  revert s. induction bs as [|x bs IH]; intros s Hs; simpl in Hs.
  - injection Hs as <-. simpl. rewrite app_nil_r. repeat split; auto.
  - apply bind_Ok in Hs as (t & Ht & Hs).
    apply val_step_collects in Ht
      as (outs & loss & _ & Hlen & _ & Hyt & Hys & Hyp).
    destruct (IH t Hs) as (IHt & IHp & IHl).
    cbn [concat]. rewrite map_app, length_app. repeat split.
    + rewrite IHt, Hyt, <- app_assoc. reflexivity.
    + intros Hp. apply IHp. rewrite Hyp, Hys, Hp, map_app. reflexivity.
    + intros Hrows. rewrite (IHl Hrows), Hys, length_app, (Hlen Hrows). lia.
Qed.

(** After the validation pass the three lists hold the whole validation
    set, in its order. *)
Lemma validation_collects s s' :
  (0 < batch_size args)%Z ->
  validation args val_data s = Ok s' ->
  y_true s' = map label val_data /\
  y_pred s' = map threshold (y_score s') /\
  (row_per_example -> length (y_score s') = length val_data).
Proof.
  unfold validation, val_dataloader. intros Hb Hs.
  apply val_loop_collects in Hs as (Ht & Hp & Hl).
  rewrite batches_concat in Ht, Hl by lia. simpl in Ht, Hp, Hl.
  repeat split; auto.
Qed.

Lemma epoch_body_collects e s s' :
  (0 < batch_size args)%Z ->
  epoch_body args train_data val_data e s = Ok s' ->
  y_true s' = map label val_data /\
  y_pred s' = map threshold (y_score s') /\
  (row_per_example -> length (y_score s') = length val_data).
Proof.
  unfold epoch_body. intros Hb Hs.
  apply bind_Ok in Hs as (sa & _ & Hs).
  apply bind_Ok in Hs as (sb & Hv & Hs).
  apply bind_Ok in Hs as (s1 & H1 & Hs).
  apply bind_Ok in Hs as (s2 & H2 & Hs).
  apply bind_Ok in Hs as (s3 & H3 & Hs).
  injection Hs as <-.
  apply validation_collects in Hv as (Ht & Hp & Hl); [|exact Hb].
  apply losses_frame in H1 as (_ & _ & _ & _ & Ht1 & Hs1 & Hp1).
  apply update_best_frame in H2 as (_ & _ & _ & _ & Ht2 & Hs2 & Hp2).
  apply log_to_wandb_frame in H3 as (_ & _ & _ & _ & Ht3 & Hs3 & Hp3).
  pose proof (save_model_frame args val_data e s3) as (_ & _ & _ & Ht4 & Hs4 & Hp4).
  rewrite Ht4, Hs4, Hp4, Ht3, Hs3, Hp3, Ht2, Hs2, Hp2, Ht1, Hs1, Hp1.
  auto.
Qed.

End Validation.



(** ** What an epoch reads *)

Lemma result_rel_eq {A} (r1 r2 : result A) : result_rel eq r1 r2 -> r1 = r2.
Proof. destruct r1, r2; simpl; intros H; congruence || contradiction. Qed.

Lemma result_rel_bind {A B} (R : A -> A -> Prop) (R' : B -> B -> Prop)
    (r1 r2 : result A) (f1 f2 : A -> result B) :
  result_rel R r1 r2 ->
  (forall a1 a2, R a1 a2 -> result_rel R' (f1 a1) (f2 a2)) ->
  result_rel R' (r1 ≫= f1) (r2 ≫= f2).
Proof. destruct r1, r2; simpl; intros H Hf; auto; contradiction. Qed.

Lemma for_each_rel {A S} (R : S -> S -> Prop) (body : A -> S -> result S) :
  (forall x s1 s2, R s1 s2 -> result_rel R (body x s1) (body x s2)) ->
  forall xs s1 s2, R s1 s2 -> result_rel R (for_each body xs s1) (for_each body xs s2).
Proof.
  intros Hbody xs. induction xs as [|x xs IH]; intros s1 s2 HR; simpl.
  - exact HR.
  - apply (result_rel_bind R R); [apply Hbody; exact HR | exact IH].
Qed.

Section Reads.
Context {F : Type} {SF : Scalar F} {X : Externals F}.
Variable args : Args F.
Variables train_data val_data : list (Example F).

Lemma train_step_rel x s1 s2 :
  agree_in_training s1 s2 ->
  result_rel agree_in_training (train_step args x s1) (train_step args x s2).
Proof.
  intros (Hm & Ht & Hb & Hf & Hw). unfold train_step. cbn [collate].
  rewrite Hm. destruct (forward _ _ _ _) as [[outputs ag]|err]; simpl; [|reflexivity].
  destruct (criterion _ _) as [loss|err]; simpl; [|reflexivity].
  unfold agree_in_training. simpl. rewrite Ht. auto.
Qed.

Lemma val_step_rel x s1 s2 :
  agree_in_validation s1 s2 ->
  result_rel agree_in_validation (val_step x s1) (val_step x s2).
Proof.
  intros ((Hm & Ht & Hb & Hf & Hw) & Hv & Hyt & Hys & Hyp).
  unfold val_step. cbn [collate].
  rewrite Hm. destruct (forward _ _ _ _) as [[outputs ag]|err]; simpl; [|reflexivity].
  destruct (criterion _ _) as [loss|err]; simpl; [|reflexivity].
  unfold agree_in_validation, agree_in_training. simpl.
  rewrite Hv, Hyt, Hys, Hyp. auto 10.
Qed.

Lemma losses_rel s1 s2 :
  agree_in_validation s1 s2 ->
  losses train_data val_data s1 = losses train_data val_data s2.
Proof.
  intros ((Hm & Ht & Hb & Hf & Hw) & Hv & Hyt & Hys & Hyp).
  unfold losses. rewrite Ht.
  destruct (div_int _ (length train_data)) as [tl|err]; simpl; [|reflexivity].
  rewrite Hv.
  destruct (div_int _ (length val_data)) as [vl|err]; simpl; [|reflexivity].
  f_equal. injection Hb as Hl Hmet. injection Hf as Hd Hsv.
  destruct s1, s2; simpl in *; subst; reflexivity.
Qed.

End Reads.

(** C9.  Whatever the running totals, the collected lists and the two epoch
    losses hold when an epoch starts, the epoch ends in the same way: the
    same exception, or the same variables and files.  So the losses, the
    lists and the metrics of an epoch come from its own passes alone. *)
Theorem epoch_ignores_accumulators
    {F : Type} {SF : Scalar F} {X : Externals F} (args : Args F)
    (train_data val_data : list (Example F)) (e : nat) (s : State)
    (ttl tvl : F) (yt ys : list F) (yp : list Z) (tl vl : F) :
  epoch_body args train_data val_data e
    (with_accumulators ttl tvl yt ys yp tl vl s) =
  epoch_body args train_data val_data e s.
Proof.
  unfold epoch_body. apply result_rel_eq.
  apply (result_rel_bind agree_in_training eq).
  { unfold training. apply for_each_rel.
    - apply train_step_rel.
    - unfold agree_in_training. simpl. auto. }
  intros a1 a2 Ha.
  apply (result_rel_bind agree_in_validation eq).
  { unfold validation. apply for_each_rel.
    - apply val_step_rel.
    - destruct Ha as (Hm & Ht & Hb & Hf & Hw).
      unfold agree_in_validation, agree_in_training. simpl. auto 10. }
  intros b1 b2 Hb. rewrite (losses_rel train_data val_data b1 b2 Hb).
  destruct (losses train_data val_data b2 ≫= _); simpl; reflexivity.
Qed.

(** ** The preprocessing of the inputs *)

Lemma lookup_map {A B} (f : A -> B) (l : list A) (i : nat) :
  map f l !! i = f <$> (l !! i).
Proof.
  revert i. induction l as [|a l IH]; intros [|i]; simpl; auto.
Qed.

Lemma transpose_cons {A} (r r' : list A) (rest : list (list A)) :
  transpose (r :: r' :: rest) = zip_with cons r (transpose (r' :: rest)).
Proof. reflexivity. Qed.

Lemma transpose_length {A} (bands : nat) (rows : list (list A)) :
  rows <> [] ->
  Forall (fun row => length row = bands) rows ->
  length (transpose rows) = bands.
Proof.
  induction rows as [|r rest IH]; intros Hne Hrect; [congruence|].
  apply Forall_cons in Hrect as [Hr Hrest].
  destruct rest as [|r' rest'].
  - cbn [transpose]. rewrite length_map. exact Hr.
  - rewrite transpose_cons, length_zip_with, IH, Hr by (auto; congruence). lia.
Qed.

(** Entry [(b, t)] of the transposed example is entry [(t, b)] of the
    example. *)
Lemma transpose_lookup {A} (bands : nat) (rows : list (list A)) (b t : nat) :
  Forall (fun row => length row = bands) rows ->
  transpose rows !! b ≫= (.!! t) = rows !! t ≫= (.!! b).
Proof.
  revert t. induction rows as [|r rest IH]; intros t Hrect.
  - destruct t; reflexivity.
  - apply Forall_cons in Hrect as [Hr Hrest].
    destruct rest as [|r' rest'].
    + cbn [transpose]. rewrite lookup_map.
      destruct (r !! b) as [v|] eqn:Hv; simpl.
      * destruct t as [|t]; simpl; [exact (eq_sym Hv)|]. destruct t; reflexivity.
      * destruct t as [|t]; simpl; [exact (eq_sym Hv)|]. destruct t; reflexivity.
    + rewrite transpose_cons.
      assert (Hne : r' :: rest' <> []) by congruence.
      remember (r' :: rest') as rest eqn:Hrest'. clear Hrest'.
      rewrite lookup_zip_with.
      destruct (r !! b) as [v|] eqn:Hv; simpl.
      * assert (Hb : b < bands) by (rewrite <- Hr; eapply lookup_lt_Some; eauto).
        destruct (transpose rest !! b) as [col|] eqn:Hcol; simpl.
        -- destruct t as [|t]; simpl; [exact (eq_sym Hv)|].
           rewrite <- (IH t Hrest). reflexivity.
        -- apply lookup_ge_None in Hcol.
           rewrite (transpose_length bands) in Hcol by assumption.
           lia.
      * apply lookup_ge_None in Hv. rewrite Hr in Hv.
        destruct t as [|t]; simpl.
        -- symmetry. apply lookup_ge_None. lia.
        -- destruct (rest !! t) as [row|] eqn:Hrow; simpl; [|reflexivity].
           symmetry. apply lookup_ge_None.
           rewrite List.Forall_forall in Hrest.
           rewrite (Hrest row); [lia|].
           apply list_elem_of_In. eapply list_elem_of_lookup_2. exact Hrow.
Qed.

Section Preprocessing.
Context {F : Type} {SF : Scalar F} {X : Externals F}.

(** What the network receives: at [(i, b, t)] the raw value at [(i, t, b)]
    times [1e-4]. *)
Lemma preprocessing_lookup (bands : nat) (x : list (list (list F))) (i b t : nat) :
  rectangular bands x ->
  ((map transpose (rescale x) !! i) ≫= (.!! b)) ≫= (.!! t) =
  (fun v => fmul v fscale) <$> (((x !! i) ≫= (.!! t)) ≫= (.!! b)).
Proof.
  intros Hrect. unfold rescale. rewrite !lookup_map.
  destruct (x !! i) as [rows|] eqn:Hrows; simpl; [|reflexivity].
  rewrite (transpose_lookup bands).
  - rewrite lookup_map. destruct (rows !! t) as [row|]; simpl; [|reflexivity].
    apply lookup_map.
  - apply List.Forall_forall. intros row' Hin.
    apply in_map_iff in Hin as (row & <- & Hin). rewrite length_map.
    unfold rectangular in Hrect. rewrite List.Forall_forall in Hrect.
    assert (Hx : In rows x).
    { apply list_elem_of_In. eapply list_elem_of_lookup_2. exact Hrows. }
    specialize (Hrect rows Hx). rewrite List.Forall_forall in Hrect. auto.
Qed.

(** The tape gets the network, the squeeze and the sigmoid when tracking
    is enabled, and nothing otherwise: never the rescaling, never the
    transposition, even for inputs that require a gradient.  The tracking
    mode is the same after the call as before. *)
Lemma forward_tape m training x ag out ag' :
  forward m training x ag = Ok (out, ag') ->
  grad_enabled ag' = grad_enabled ag /\
  tape ag' =
    tape ag ++ (if grad_enabled ag then [OpNet; OpSqueeze; OpSigmoid] else []) /\
  requires_grad out = grad_enabled ag.
Proof.
  unfold forward. intros H.
  apply bind_Ok in H as ([x1 ag1] & H1 & H).
  apply bind_Ok in H as ([x2 ag2] & H2 & H).
  apply bind_Ok in H as ([x3 ag3] & H3 & H).
  apply bind_Ok in H as ([x4 ag4] & H4 & H).
  apply apply_op_Ok in H1 as (_ & R1 & ->), H2 as (_ & R2 & ->),
    H3 as (_ & R3 & ->), H4 as (_ & R4 & ->), H as (_ & R5 & ->).
  destruct ag as [enabled t].
  simpl in R1. rewrite R1 in *. simpl in R2. rewrite R2 in *.
  simpl in R3. rewrite ?orb_true_r, ?andb_true_r in R3. rewrite R3 in *.
  simpl in R4. rewrite ?orb_false_r in R4.
  destruct enabled; simpl in *.
  - rewrite R4 in *. simpl in *. rewrite R5. simpl.
    rewrite <- !app_assoc. auto.
  - rewrite R4 in *. simpl in *. rewrite R5. simpl.
    rewrite app_nil_r. auto.
Qed.

End Preprocessing.

(** ** The sigmoid *)

Lemma sigmoid_range (x : R) : (0 < Exact.sigmoid x < 1)%R.
Proof.
  unfold Exact.sigmoid. pose proof (exp_pos (- x)) as He.
  split.
  - apply Rdiv_lt_0_compat; lra.
  - apply (Rmult_lt_reg_r (1 + exp (- x))); [lra|].
    unfold Rdiv. rewrite Rmult_assoc, Rinv_l by lra. lra.
Qed.



(** ** The epoch losses *)

Section Losses.
Context {F : Type} {SF : Scalar F} {X : Externals F}.
Variable args : Args F.
Variables train_data val_data : list (Example F).

(** The two losses of an epoch are the totals of its two passes, divided by
    the sizes of the two datasets. *)
Lemma epoch_body_losses e s s' :
  epoch_body args train_data val_data e s = Ok s' ->
  exists sa sb,
    for_each (train_step args) (train_dataloader args train_data e)
      (set_total_train_loss fzero s) = Ok sa /\
    for_each val_step (val_dataloader args val_data)
      (set_y_pred [] (set_y_score [] (set_y_true []
         (set_total_val_loss fzero sa)))) = Ok sb /\
    train_data <> [] /\ val_data <> [] /\
    train_loss s' = fdiv (total_train_loss sa) (of_int (length train_data)) /\
    val_loss s' = fdiv (total_val_loss sb) (of_int (length val_data)) /\
    y_true s' = y_true sb /\ y_score s' = y_score sb.
Proof.
  unfold epoch_body. intros Hs.
  apply bind_Ok in Hs as (sa & Ha & Hs).
  apply bind_Ok in Hs as (sb & Hb & Hs).
  apply bind_Ok in Hs as (s1 & H1 & Hs).
  apply bind_Ok in Hs as (s2 & H2 & Hs).
  apply bind_Ok in Hs as (s3 & H3 & Hs).
  injection Hs as <-.
  exists sa, sb. split; [exact Ha|]. split; [exact Hb|].
  pose proof (validation_frame _ _ _ _ Hb) as (_ & _ & _ & _ & Htt).
  unfold losses in H1.
  destruct train_data as [|x1 l1]; [discriminate|].
  destruct val_data as [|x2 l2]; [discriminate|].
  cbn [div_int mbind result_bind] in H1. injection H1 as <-.
  split; [discriminate|]. split; [discriminate|].
  assert (H23 : train_loss s3 = train_loss s2 /\ val_loss s3 = val_loss s2 /\
                y_true s3 = y_true s2 /\ y_score s3 = y_score s2).
  { unfold log_to_wandb in H3. destruct (wandb_enabled args).
    - apply bind_Ok in H3 as (vs & _ & H3). injection H3 as <-. auto.
    - injection H3 as <-. auto. }
  assert (H12 : train_loss s2 = fdiv (total_train_loss sa) (of_int (length (x1 :: l1))) /\
                val_loss s2 = fdiv (total_val_loss sb) (of_int (length (x2 :: l2))) /\
                y_true s2 = y_true sb /\ y_score s2 = y_score sb).
  { unfold update_best in H2. destruct (selection_rule _ _).
    - apply bind_Ok in H2 as (vs & _ & H2). injection H2 as <-.
      simpl. rewrite Htt. auto.
    - injection H2 as <-. simpl. rewrite Htt. auto. }
  destruct H23 as (T3 & V3 & Y3 & S3), H12 as (T2 & V2 & Y2 & S2).
  assert (H4 : train_loss (save_model args (x2 :: l2) e s3) = train_loss s3 /\
               val_loss (save_model args (x2 :: l2) e s3) = val_loss s3 /\
               y_true (save_model args (x2 :: l2) e s3) = y_true s3 /\
               y_score (save_model args (x2 :: l2) e s3) = y_score s3).
  { unfold save_model. destruct (save_condition _ _); [|auto].
    destruct (disk s3 !! _); auto. }
  destruct H4 as (T4 & V4 & Y4 & S4).
  repeat split; congruence.
Qed.

End Losses.

(** *** The binary cross-entropy *)

Local Open Scope R_scope.

Lemma clamped_log_range p : p <= 1 -> -100 <= Exact.clamped_log p <= 0.
Proof.
  intros Hp. unfold Exact.clamped_log.
  destruct (Rle_dec p 0) as [H0|H0]; [lra|].
  assert (Hln : ln p <= 0).
  { destruct (Req_dec p 1) as [->|Hne]; [rewrite ln_1; lra|].
    rewrite <- ln_1. left. apply ln_increasing; lra. }
  split.
  - apply Rmax_r.
  - apply Rmax_lub; lra.
Qed.

(** The loss of one example is between 0 and 100. *)
Lemma bce_range p y :
  0 <= p <= 1 -> y = 0 \/ y = 1 -> 0 <= Exact.bce p y <= 100.
Proof.
  intros Hp Hy. unfold Exact.bce.
  pose proof (clamped_log_range p ltac:(lra)).
  pose proof (clamped_log_range (1 - p) ltac:(lra)).
  destruct Hy as [-> | ->]; lra.
Qed.

Lemma in_unit_true p : Exact.in_unit p = true -> 0 <= p <= 1.
Proof.
  unfold Exact.in_unit.
  destruct (Rle_dec 0 p), (Rle_dec p 1); intros; (discriminate || lra).
Qed.

Lemma BCELoss_Ok outs labels loss :
  Exact.BCELoss outs labels = Ok loss ->
  length outs = length labels /\
  Forall (fun p => 0 <= p <= 1) outs /\
  loss = Exact.mean (zip_with Exact.bce outs labels).
Proof.
  unfold Exact.BCELoss. intros H.
  destruct (Nat.eqb_spec (length outs) (length labels)) as [Hlen|];
    [|discriminate].
  destruct (forallb Exact.in_unit outs) eqn:Hall; [|discriminate].
  injection H as <-. repeat split; [exact Hlen|].
  apply List.Forall_forall. intros p Hp. apply in_unit_true.
  rewrite forallb_forall in Hall. auto.
Qed.

Lemma sum_app l1 l2 : Exact.sum (l1 ++ l2) = Exact.sum l1 + Exact.sum l2.
Proof.
  induction l1 as [|a l1 IH]; simpl; [lra|]. rewrite IH. lra.
Qed.

(** The mean of a batch times its size is the sum over the batch. *)
Lemma mean_times_length l :
  l <> [] -> Exact.mean l * INR (length l) = Exact.sum l.
Proof.
  intros Hl. unfold Exact.mean.
  assert (INR (length l) <> 0).
  { apply not_0_INR. destruct l; [congruence | discriminate]. }
  field. assumption.
Qed.

Lemma sum_range l :
  Forall (fun v => 0 <= v <= 100) l ->
  0 <= Exact.sum l <= 100 * INR (length l).
Proof.
  induction 1 as [|v l Hv _ IH].
  - simpl. lra.
  - cbn [Exact.sum fold_right length]. fold (Exact.sum l). rewrite S_INR. lra.
Qed.

Lemma mean_range l :
  l <> [] -> Forall (fun v => 0 <= v <= 100) l -> 0 <= Exact.mean l <= 100.
Proof.
  intros Hl Hall. pose proof (sum_range l Hall) as Hs. unfold Exact.mean.
  assert (Hn : 0 < INR (length l)).
  { apply lt_0_INR. destruct l; [congruence | simpl; lia]. }
  split.
  - apply Rmult_le_reg_r with (INR (length l)); [exact Hn|].
    unfold Rdiv. rewrite Rmult_assoc, Rinv_l by lra. lra.
  - apply Rmult_le_reg_r with (INR (length l)); [exact Hn|].
    unfold Rdiv. rewrite Rmult_assoc, Rinv_l by lra. lra.
Qed.

Lemma zip_bce_range scores labels :
  Forall (fun p => 0 <= p <= 1) scores ->
  Forall (fun y => y = 0 \/ y = 1) labels ->
  Forall (fun v => 0 <= v <= 100) (zip_with Exact.bce scores labels).
Proof.
  intros Hs. revert labels. induction Hs as [|p scores Hp _ IH]; intros labels Hl.
  - constructor.
  - destruct Hl as [|y labels Hy Hl]; [constructor|].
    cbn [zip_with]. constructor; [apply bce_range; assumption | apply IH; exact Hl].
Qed.

Local Close Scope R_scope.

(** *** The totals of the two passes *)

Section ExactLosses.
Context {X : Externals R}.
Variable args : Args R.
Variables train_data val_data : list (Example R).
Hypothesis criterion_is_BCELoss : forall o l, criterion o l = Exact.BCELoss o l.

(** What a batch adds to a total: its mean loss times its size, which is
    the sum of the losses of its examples. *)
Lemma batch_contribution outs (x : list (Example R)) loss :
  x <> [] ->
  criterion outs (map label x) = Ok loss ->
  length outs = length x /\
  Forall (fun p => 0 <= p <= 1)%R outs /\
  loss = Exact.mean (zip_with Exact.bce outs (map label x)) /\
  (loss * INR (length (map input x)))%R =
  Exact.sum (zip_with Exact.bce outs (map label x)).
Proof.
  intros Hx Hc. rewrite criterion_is_BCELoss in Hc.
  apply BCELoss_Ok in Hc as (Hlen & Hall & ->).
  rewrite length_map in Hlen.
  repeat split; try assumption.
  rewrite <- mean_times_length.
  - rewrite length_zip_with, !length_map, Hlen, Nat.min_id. reflexivity.
  - destruct x, outs; simpl in *; congruence.
Qed.

Lemma train_step_total x s s' :
  train_step args x s = Ok s' ->
  exists outs loss,
    criterion outs (map label x) = Ok loss /\
    total_train_loss s' =
      (total_train_loss s + loss * INR (length (map input x)))%R.
Proof.
  unfold train_step. cbn [collate]. intros Hs.
  apply bind_Ok in Hs as ([outputs ag] & _ & Hs).
  apply bind_Ok in Hs as (loss & Hc & Hs).
  injection Hs as <-. exists (data outputs), loss. split; [exact Hc | reflexivity].
Qed.

Lemma train_loop_total bs s s' :
  Forall (fun x => 0 < length x) bs ->
  for_each (train_step args) bs s = Ok s' ->
  exists scores,
    length scores = length (concat bs) /\
    Forall (fun p => 0 <= p <= 1)%R scores /\
    total_train_loss s' =
      (total_train_loss s +
       Exact.sum (zip_with Exact.bce scores (map label (concat bs))))%R.
Proof.
  intros Hne. revert s. induction Hne as [|x bs Hx _ IH]; intros s Hs; simpl in Hs.
  - injection Hs as <-. exists []. simpl. repeat split; [constructor | lra].
  - apply bind_Ok in Hs as (t & Ht & Hs).
    apply train_step_total in Ht as (outs & loss & Hc & Ht).
    apply batch_contribution in Hc as (Hlen & Hall & _ & Hsum);
      [|destruct x; simpl in *; [lia | discriminate]].
    destruct (IH t Hs) as (scores & Hl & Hr & Htot).
    exists (outs ++ scores). cbn [concat].
    rewrite map_app, zip_with_app by (rewrite length_map; exact Hlen).
    rewrite sum_app, !length_app, Hl, Hlen. repeat split.
    + apply Forall_app. auto.
    + rewrite Htot, Ht, Hsum. lra.
Qed.

Lemma val_loop_total bs s s' :
  Forall (fun x => 0 < length x) bs ->
  for_each val_step bs s = Ok s' ->
  exists scores,
    y_score s' = y_score s ++ scores /\
    y_true s' = y_true s ++ map label (concat bs) /\
    length scores = length (concat bs) /\
    Forall (fun p => 0 <= p <= 1)%R scores /\
    total_val_loss s' =
      (total_val_loss s +
       Exact.sum (zip_with Exact.bce scores (map label (concat bs))))%R.
Proof.
  intros Hne. revert s. induction Hne as [|x bs Hx _ IH]; intros s Hs; simpl in Hs.
  - injection Hs as <-. exists []. simpl. rewrite !app_nil_r.
    repeat split; [constructor | lra].
  - apply bind_Ok in Hs as (t & Ht & Hs).
    apply val_step_collects in Ht
      as (outs & loss & Hc & _ & Ht & Hyt & Hys & _).
    apply batch_contribution in Hc as (Hlen & Hall & _ & Hsum);
      [|destruct x; simpl in *; [lia | discriminate]].
    destruct (IH t Hs) as (scores & Hsc & Htr & Hl & Hr & Htot).
    exists (outs ++ scores). cbn [concat].
    rewrite map_app, zip_with_app by (rewrite length_map; exact Hlen).
    rewrite sum_app, !length_app, Hl, Hlen. repeat split.
    + rewrite Hsc, Hys, <- app_assoc. reflexivity.
    + rewrite Htr, Hyt, <- app_assoc. reflexivity.
    + apply Forall_app. auto.
    + rewrite Htot. cbn [fadd fmul of_int exact] in Ht. rewrite Ht, Hsum. lra.
Qed.

End ExactLosses.


(** ** Epochs that complete *)

Lemma squeeze_dim1_total {A} (y : list (list A)) :
  Forall (fun row => length row = 1) y -> completes (squeeze_dim1 y).
Proof.
  induction 1 as [|row y Hrow _ [z Hz]].
  - exists []. reflexivity.
  - destruct row as [|v [|w row]]; try discriminate.
    exists (v :: z). unfold squeeze_dim1 in *. cbn [mapM].
    rewrite Hz. reflexivity.
Qed.

Lemma for_each_completes {A S} (body : A -> S -> result S) (xs : list A) :
  (forall x s, completes (body x s)) -> forall s, completes (for_each body xs s).
Proof.
  intros Hbody. induction xs as [|x xs IH]; intros s; simpl.
  - exists s. reflexivity.
  - destruct (Hbody x s) as [s' ->]. simpl. apply IH.
Qed.

Section Completes.
Context {F : Type} {SF : Scalar F} {X : Externals F}.
Variable args : Args F.
Variables train_data val_data : list (Example F).
Hypothesis network : network_total X.

Lemma network_rows : row_per_example.
Proof.
  intros m training x y Hy.
  destruct (network m training x) as (y' & Hy' & Hlen & _). congruence.
Qed.

(** The model returns one score for each example of any block. *)
Lemma forward_completes m training x ag :
  exists out ag',
    forward m training x ag = Ok (out, ag') /\
    length (data out) = length (data x) /\
    exists z, data out = map sigmoid z.
Proof.
  destruct (network m training (map transpose (rescale (data x))))
    as (y & Hy & Hlen & Hrows).
  destruct (squeeze_dim1_total y Hrows) as [z Hz].
  unfold forward, apply_op. cbn -[squeeze_dim1 transpose rescale].
  rewrite Hy. cbn -[squeeze_dim1 transpose rescale].
  rewrite Hz. cbn -[squeeze_dim1 transpose rescale].
  eexists _, _. split; [reflexivity|]. cbn -[squeeze_dim1 transpose rescale].
  split; [|exists z; reflexivity].
  rewrite length_map, (squeeze_dim1_length _ _ Hz), Hlen.
  unfold rescale. rewrite !length_map. reflexivity.
Qed.

(** When the loss accepts what the model returns for a batch, both steps
    complete. *)
Hypothesis loss_accepts :
  forall z labels, length z = length labels ->
                   completes (criterion (map sigmoid z) labels).

Lemma train_step_completes x s : completes (train_step args x s).
Proof.
  unfold train_step. cbn [collate].
  destruct (forward_completes (model s) true
              {| data := map input x; requires_grad := false |}
              {| grad_enabled := true; tape := [] |})
    as (out & ag' & -> & Hlen & z & Hz).
  cbn. rewrite Hz.
  destruct (loss_accepts z (map label x)) as [loss ->].
  - rewrite Hz in Hlen. cbn [data] in Hlen. rewrite !length_map in Hlen.
    rewrite length_map. exact Hlen.
  - cbn. eexists. reflexivity.
Qed.

Lemma val_step_completes x s : completes (val_step x s).
Proof.
  unfold val_step. cbn [collate].
  destruct (forward_completes (model s) false
              {| data := map input x; requires_grad := false |}
              {| grad_enabled := false; tape := [] |})
    as (out & ag' & -> & Hlen & z & Hz).
  cbn. rewrite Hz.
  destruct (loss_accepts z (map label x)) as [loss ->].
  - rewrite Hz in Hlen. cbn [data] in Hlen. rewrite !length_map in Hlen.
    rewrite length_map. exact Hlen.
  - cbn. eexists. reflexivity.
Qed.

(** An epoch completes when the datasets are not empty and the scores are
    defined. *)
Lemma epoch_body_completes e s :
  scores_total X ->
  train_data <> [] -> val_data <> [] ->
  completes (epoch_body args train_data val_data e s).
Proof.
  intros (Hacc & Hf1 & Hprec & Hrec & Hauc) Ht Hv.
  assert (Hscores : forall t, completes (scores t)).
  { intros t. unfold scores.
    destruct (Hacc (y_true t) (y_pred t)) as [a ->].
    destruct (Hf1 (y_true t) (y_pred t)) as [f ->].
    destruct (Hprec (y_true t) (y_pred t)) as [p ->].
    destruct (Hrec (y_true t) (y_pred t)) as [r ->].
    destruct (Hauc (y_true t) (y_score t)) as [u ->].
    cbn. eexists. reflexivity. }
  unfold epoch_body, training, validation.
  destruct (for_each_completes (train_step args) (train_dataloader args train_data e)
              train_step_completes (set_total_train_loss fzero s)) as [sa ->].
  cbn [mbind result_bind].
  destruct (for_each_completes val_step (val_dataloader args val_data)
              val_step_completes
              (set_y_pred [] (set_y_score [] (set_y_true []
                 (set_total_val_loss fzero sa))))) as [sb ->].
  cbn [mbind result_bind].
  unfold losses.
  destruct train_data as [|x1 l1]; [congruence|].
  destruct val_data as [|x2 l2]; [congruence|].
  cbn [div_int length mbind result_bind].
  unfold update_best.
  destruct (selection_rule _ _).
  - destruct (Hscores (set_lowest_validation_loss
                (Some (val_loss (set_val_loss
                   (fdiv (total_val_loss (set_train_loss
                      (fdiv (total_train_loss sb) (of_int (S (length l1)))) sb))
                      (of_int (S (length l2))))
                   (set_train_loss
                      (fdiv (total_train_loss sb) (of_int (S (length l1)))) sb))))
                (set_val_loss
                   (fdiv (total_val_loss (set_train_loss
                      (fdiv (total_train_loss sb) (of_int (S (length l1)))) sb))
                      (of_int (S (length l2))))
                   (set_train_loss
                      (fdiv (total_train_loss sb) (of_int (S (length l1)))) sb))))
      as [vs Hvs].
    rewrite Hvs. cbn [mbind result_bind].
    unfold log_to_wandb. destruct (wandb_enabled args).
    + match goal with |- context [scores ?t] => destruct (Hscores t) as [ws ->] end.
      cbn. eexists. reflexivity.
    + cbn. eexists. reflexivity.
  - cbn [mbind result_bind].
    unfold log_to_wandb. destruct (wandb_enabled args).
    + match goal with |- context [scores ?t] => destruct (Hscores t) as [ws ->] end.
      cbn. eexists. reflexivity.
    + cbn. eexists. reflexivity.
Qed.

End Completes.

(** *** The run over the real numbers *)

Lemma BCELoss_complete outs labels :
  length outs = length labels ->
  Forall (fun p => 0 <= p <= 1)%R outs ->
  Exact.BCELoss outs labels = Ok (Exact.mean (zip_with Exact.bce outs labels)).
Proof.
  intros Hlen Hall. unfold Exact.BCELoss.
  rewrite (proj2 (Nat.eqb_eq _ _) Hlen). cbn [negb].
  assert (Hin : forallb Exact.in_unit outs = true).
  { apply forallb_forall. intros p Hp.
    rewrite List.Forall_forall in Hall. specialize (Hall p Hp).
    unfold Exact.in_unit.
    destruct (Rle_dec 0 p); [|lra]. destruct (Rle_dec p 1); [reflexivity|lra]. }
  rewrite Hin. reflexivity.
Qed.

(** The loss of torch accepts the scores the sigmoid returns. *)
Lemma BCELoss_accepts_sigmoid z labels :
  length z = length labels ->
  completes (Exact.BCELoss (map Exact.sigmoid z) labels).
Proof.
  intros Hlen. eexists. apply BCELoss_complete.
  - rewrite length_map. exact Hlen.
  - apply List.Forall_forall. intros p Hp.
    apply in_map_iff in Hp as (v & <- & _).
    pose proof (sigmoid_range v). lra.
Qed.

Lemma exact_demo_completes :
  completes (epoch_body (X := ExactDemo.constant_network)
               ExactDemo.args ExactDemo.dataset ExactDemo.dataset 0
               ExactDemo.start).
Proof.
  apply epoch_body_completes.
  - intros m training x. eexists. split; [reflexivity|].
    split; [apply length_map|].
    apply List.Forall_forall. intros row Hrow.
    apply in_map_iff in Hrow as (v & <- & _). reflexivity.
  - exact BCELoss_accepts_sigmoid.
  - repeat split; intros; eexists; reflexivity.
  - discriminate.
  - discriminate.
Qed.


(** ** Rounding to four decimal places *)

Local Open Scope R_scope.

Lemma round_half_even_bounds (x : R) (N : Z) :
  0 <= x <= IZR N -> (0 <= Exact.round_half_even x <= N)%Z.
Proof.
  intros [H0 HN]. unfold Exact.round_half_even.
  destruct (base_Int_part x) as [Hlo Hhi].
  set (n := Int_part x) in *.
  assert (Hn0 : (0 <= n)%Z).
  { assert (Hm : IZR (-1) < IZR n) by lra. apply lt_IZR in Hm. lia. }
  assert (HnN : (n <= N)%Z) by (apply le_IZR; lra).
  assert (Hstep : IZR n < x -> (n + 1 <= N)%Z).
  { intros Hlt. assert (Hm : IZR n < IZR N) by lra. apply lt_IZR in Hm. lia. }
  destruct (Rlt_dec (x - IZR n) (1 / 2)); [lia|].
  destruct (Rlt_dec (1 / 2) (x - IZR n)).
  - split; [lia|]. apply Hstep. lra.
  - destruct (Z.even n); [lia|]. split; [lia|]. apply Hstep. lra.
Qed.

(** The rounded integer is within one half of the number. *)
Lemma round_half_even_near (x : R) :
  - (1 / 2) <= IZR (Exact.round_half_even x) - x <= 1 / 2.
Proof.
  unfold Exact.round_half_even.
  destruct (base_Int_part x) as [Hlo Hhi].
  set (n := Int_part x) in *.
  destruct (Rlt_dec (x - IZR n) (1 / 2)); [lra|].
  destruct (Rlt_dec (1 / 2) (x - IZR n)).
  - rewrite plus_IZR. lra.
  - destruct (Z.even n); [lra|]. rewrite plus_IZR. lra.
Qed.

(** Rounding keeps a number of [[0, 1]] in [[0, 1]]. *)
Lemma round4_range (v : R) : 0 <= v <= 1 -> 0 <= Exact.round4 v <= 1.
Proof.
  intros Hv. unfold Exact.round4.
  destruct (round_half_even_bounds (v * 10000) 10000) as [Hlo Hhi]; [lra|].
  apply IZR_le in Hlo, Hhi. lra.
Qed.

Lemma round4_four_decimals (v : R) : Exact.four_decimals (Exact.round4 v).
Proof. eexists. reflexivity. Qed.

(** The rounded number is within half a unit of the fourth decimal place. *)
Lemma round4_near (v : R) :
  - (1 / 20000) <= Exact.round4 v - v <= 1 / 20000.
Proof.
  unfold Exact.round4. pose proof (round_half_even_near (v * 10000)) as H. lra.
Qed.

(** A number with four decimal places is left as it is. *)
Lemma round4_fixed (n : Z) : Exact.round4 (IZR n / 10000) = IZR n / 10000.
Proof.
  unfold Exact.round4. f_equal. f_equal.
  replace (IZR n / 10000 * 10000) with (IZR n) by lra.
  unfold Exact.round_half_even.
  rewrite <- (Int_part_spec (IZR n) n) by lra.
  destruct (Rlt_dec (IZR n - IZR n) (1 / 2)); [reflexivity | lra].
Qed.

Local Close Scope R_scope.

(** ** The metrics of the best epoch *)

Lemma scores_Ok {F : Type} {X : Externals F} (t : State) (vs : list F) :
  scores t = Ok vs ->
  exists a f p r u,
    accuracy_score (y_true t) (y_pred t) = Ok a /\
    f1_score (y_true t) (y_pred t) = Ok f /\
    precision_score (y_true t) (y_pred t) = Ok p /\
    recall_score (y_true t) (y_pred t) = Ok r /\
    roc_auc_score (y_true t) (y_score t) = Ok u /\
    vs = [a; f; p; r; u].
Proof.
  unfold scores. intros H.
  apply bind_Ok in H as (a & Ha & H).
  apply bind_Ok in H as (f & Hf & H).
  apply bind_Ok in H as (p & Hp & H).
  apply bind_Ok in H as (r & Hr & H).
  apply bind_Ok in H as (u & Hu & H).
  injection H as <-. exists a, f, p, r, u. auto 10.
Qed.

(** The metrics kept for a new best epoch: the five scores of the lists the
    validation pass of this epoch collected, each one rounded. *)
Lemma epoch_body_best_metrics {F : Type} {SF : Scalar F} {X : Externals F}
    (args : Args F) (train_data val_data : list (Example F)) (e : nat)
    (s s' : State) :
  epoch_body args train_data val_data e s = Ok s' ->
  selection_rule (lowest_validation_loss s) (val_loss s') = true ->
  exists a f p r u,
    accuracy_score (y_true s') (y_pred s') = Ok a /\
    f1_score (y_true s') (y_pred s') = Ok f /\
    precision_score (y_true s') (y_pred s') = Ok p /\
    recall_score (y_true s') (y_pred s') = Ok r /\
    roc_auc_score (y_true s') (y_score s') = Ok u /\
    metrics s' =
      <["accuracy"%string := round4 a]> (<["f1"%string := round4 f]>
      (<["precision"%string := round4 p]> (<["recall"%string := round4 r]>
      (<["roc_auc"%string := round4 u]> ∅)))).
Proof.
  unfold epoch_body. intros Hs Hrule.
  apply bind_Ok in Hs as (sa & Ha & Hs).
  apply bind_Ok in Hs as (sb & Hb & Hs).
  apply bind_Ok in Hs as (s1 & H1 & Hs).
  apply bind_Ok in Hs as (s2 & H2 & Hs).
  apply bind_Ok in Hs as (s3 & H3 & Hs).
  injection Hs as <-.
  apply training_frame in Ha as (Hba & _).
  apply validation_frame in Hb as (Hbb & _).
  apply losses_frame in H1 as (Hb1 & _).
  pose proof (update_best_frame _ _ H2) as (_ & _ & _ & Hv2 & Ht2 & Hs2 & Hp2).
  apply log_to_wandb_frame in H3 as (Hb3 & _ & _ & Hv3 & Ht3 & Hs3 & Hp3).
  pose proof (save_model_frame args val_data e s3)
    as (Hb4 & _ & Hv4 & Ht4 & Hs4 & Hp4).
  assert (Hl1 : lowest_validation_loss s1 = lowest_validation_loss s).
  { assert (Hbs : best s1 = best s) by congruence. injection Hbs; auto. }
  rewrite Hv4, Hv3, Hv2, <- Hl1 in Hrule.
  apply (update_best_fires _ _ H2) in Hrule as (_ & vs & Hvs & Hm).
  apply scores_Ok in Hvs as (a & f & p & r & u & Ea & Ef & Ep & Er & Eu & ->).
  exists a, f, p, r, u.
  rewrite Ht4, Hs4, Hp4, Ht3, Hs3, Hp3, Ht2, Hs2, Hp2.
  repeat (split; [assumption|]).
  assert (Hm4 : metrics (save_model args val_data e s3) = metrics s2).
  { assert (Hbs : best (save_model args val_data e s3) = best s2) by congruence.
    injection Hbs; auto. }
  rewrite Hm4, Hm. cbn [zip zip_with metric_names list_to_map foldr fst snd curry].
  rewrite !fmap_insert, fmap_empty. reflexivity.
Qed.



(** * Further properties of the script *)

(** ** The announced number of batches *)

(** The count the script passes to the progress bar, [1 + n // b], is the
    number of batches the loader yields exactly when [b] does not divide
    [n]; when it does, the count is one too many. *)
Theorem train_batches_counts (n : nat) (b : Z) :
  (0 < b)%Z ->
  exists k,
    train_batches n b = Ok k /\
    (n mod Z.to_nat b <> 0 -> k = Z.of_nat (ceil_div n (Z.to_nat b))) /\
    (n mod Z.to_nat b = 0 -> k = (Z.of_nat (ceil_div n (Z.to_nat b)) + 1)%Z).
Proof.
  intros Hb. eexists. split; [apply train_batches_spec; exact Hb|].
  destruct (Nat.eqb_spec (n mod Z.to_nat b) 0); split; intros; lia.
Qed.

Lemma train_batches_counts_witness :
  exists k, train_batches 192 64 = Ok k /\ k = 4%Z.
Proof.
  destruct (train_batches_counts 192 64) as (k & Hk & _ & Hdiv); [lia|].
  exists k. split; [exact Hk|]. rewrite Hdiv; reflexivity.
Defined.

(** ** When a checkpoint is written *)

Lemma SFeqb_swap x y : SFeqb x y = SFeqb y x.
Proof.
  unfold SFeqb. rewrite (SFcompare_swap y x).
  destruct (SFcompare y x) as [[]|]; reflexivity.
Qed.

Lemma SFleb_cases x y :
  SFleb x y = SFltb x y || SFeqb x y.
Proof.
  unfold SFleb, SFltb, SFeqb. destruct (SFcompare x y) as [[]|]; reflexivity.
Qed.

Lemma SFeqb_not_nan x y :
  SFeqb x y = true -> Float64.is_nan x = false /\ Float64.is_nan y = false.
Proof. destruct x, y; simpl; try discriminate; auto. Qed.

Lemma SFcompare_not_nan x y :
  Float64.is_nan x = false -> Float64.is_nan y = false ->
  exists c, SFcompare x y = Some c.
Proof. destruct x, y; simpl; try discriminate; eauto. Qed.

Lemma SFleb_total x y :
  Float64.is_nan x = false -> Float64.is_nan y = false ->
  SFltb x y = false -> SFleb y x = true.
Proof.
  intros Hx Hy. destruct (SFcompare_not_nan x y Hx Hy) as [c Hc].
  unfold SFltb, SFleb. rewrite (SFcompare_swap x y), Hc.
  destruct c; simpl; congruence.
Qed.

Lemma cons_neq {A} (a : A) (l : list A) : a :: l <> l.
Proof.
  intros H. apply (f_equal (@length A)) in H. simpl in H. lia.
Qed.

(** On floats, an epoch writes the checkpoint exactly when its validation
    loss is a number and there is no best loss yet or the loss is at most
    the best one: a loss equal to the best writes too, although the best
    loss and the metrics then stay those of the earlier epoch.  An epoch
    that writes leaves the current model under the model path. *)
Theorem checkpoint_written_iff
    (X : Externals spec_float) (args : Args spec_float)
    (train_data val_data : list (Example spec_float))
    (e : nat) (s s' : State) :
  epoch_body args train_data val_data e s = Ok s' ->
  (saves s' = e :: saves s <->
   Float64.is_nan (val_loss s') = false /\
   match lowest_validation_loss s with
   | None => True
   | Some b => SFleb (val_loss s') b = true
   end) /\
  (saves s' = e :: saves s ->
   disk s' !! model_path_from_name (model_name args val_data) = Some (model s')) /\
  (saves s' <> e :: saves s -> files s' = files s) /\
  (forall b, lowest_validation_loss s = Some b ->
             SFltb (val_loss s') b = false -> best s' = best s).
Proof.
  intros Hs.
  pose proof (epoch_body_lowest _ _ _ _ _ _ Hs) as Hl.
  pose proof (epoch_body_writes _ _ _ _ _ _ Hs) as Hw.
  pose proof (epoch_body_outcome _ _ _ _ _ _ Hs) as (_ & _ & Hsave & Hskip).
  assert (Hpath : saves s' = e :: saves s ->
                  disk s' !! model_path_from_name (model_name args val_data)
                  = Some (model s')).
  { intros Hsv.
    destruct (save_condition (lowest_validation_loss s') (val_loss s')) eqn:Hc.
    - apply Hsave. reflexivity.
    - specialize (Hskip eq_refl). injection Hskip as _ Hsk.
      rewrite Hsk in Hsv. symmetry in Hsv. apply cons_neq in Hsv. contradiction. }
  assert (Hfiles : saves s' <> e :: saves s -> files s' = files s).
  { intros Hsv.
    destruct (save_condition (lowest_validation_loss s') (val_loss s')) eqn:Hc.
    - destruct (Hsave eq_refl) as [Hsv' _]. contradiction.
    - apply Hskip. reflexivity. }
  split; [|split; [exact Hpath|split; [exact Hfiles|]]].
  - destruct (lowest_validation_loss s) as [b|] eqn:Hb.
    + destruct Hl as [[Hlt Hl']|[Hnlt Hbest]].
      * rewrite Hl' in Hw.
        destruct (SFltb_not_nan _ _ Hlt) as [Hv _].
        rewrite (SFeqb_refl _ Hv) in Hw.
        split; [intros _|intros _; exact Hw].
        split; [exact Hv | apply SFltb_SFleb; exact Hlt].
      * injection Hbest as Hl' _. rewrite Hl', Hb in Hw.
        rewrite SFleb_cases, Hnlt, (SFeqb_swap (val_loss s') b). cbn [orb].
        destruct (SFeqb b (val_loss s')) eqn:Heq.
        -- split; [intros _|intros _; exact Hw].
           split; [apply (SFeqb_not_nan _ _ Heq) | reflexivity].
        -- split; [|intros [_ Hf]; discriminate].
           intros Hsv. rewrite Hw in Hsv. symmetry in Hsv.
           apply cons_neq in Hsv. contradiction.
    + rewrite Hl in Hw.
      destruct (Float64.is_nan (val_loss s')) eqn:Hnan.
      * rewrite (SFeqb_nan _ Hnan) in Hw.
        split; [|intros [Hf _]; discriminate].
        intros Hsv. rewrite Hw in Hsv. symmetry in Hsv.
        apply cons_neq in Hsv. contradiction.
      * rewrite (SFeqb_refl _ Hnan) in Hw. split; auto.
  - intros b Hb Hnlt. rewrite Hb in Hl.
    destruct Hl as [[Hlt _]|[_ Hbest]]; [congruence | exact Hbest].
Qed.

(** Every epoch of the run of [Demo] completes. *)
Lemma demo_completes (epochs : Z) (e : nat) (s : State) :
  completes (epoch_body (X := Demo.dead_network)
               (Demo.args epochs) Demo.data Demo.data e s).
Proof.
  apply epoch_body_completes.
  - intros m training x. eexists. split; [reflexivity|].
    split; [apply length_map|].
    apply List.Forall_forall. intros row Hrow.
    apply in_map_iff in Hrow as (v & <- & _). reflexivity.
  - intros z labels _. eexists. reflexivity.
  - repeat split; intros; eexists; reflexivity.
  - intros H. discriminate H.
  - intros H. discriminate H.
Qed.

Lemma checkpoint_written_iff_witness :
  match after_epochs (X := Demo.dead_network) (Demo.args 2) Demo.data Demo.data ∅ 1 0
  with
  | Ok s =>
      match epoch_body (X := Demo.dead_network) (Demo.args 2) Demo.data Demo.data 1 s
      with
      | Ok s' =>
          saves s' = 1 :: saves s <->
          Float64.is_nan (val_loss s') = false /\
          match lowest_validation_loss s with
          | None => True
          | Some b => SFleb (val_loss s') b = true
          end
      | Raise _ => False
      end
  | Raise _ => False
  end.
Proof.
  destruct (after_epochs (X := Demo.dead_network) (Demo.args 2) Demo.data Demo.data ∅ 1 0)
    as [s|err] eqn:H1; [|vm_compute in H1; discriminate].
  destruct (epoch_body (X := Demo.dead_network) (Demo.args 2) Demo.data Demo.data 1 s)
    as [s'|err] eqn:H2.
  - exact (proj1 (checkpoint_written_iff
                    Demo.dead_network (Demo.args 2) Demo.data Demo.data 1 s s' H2)).
  - destruct (demo_completes 2 1 s) as [t Ht].
    rewrite H2 in Ht. discriminate Ht.
Defined.

(** After every epoch the best loss is at most the loss of that epoch,
    when both are numbers. *)
Theorem best_loss_at_most_epoch_loss
    (X : Externals spec_float) (args : Args spec_float)
    (train_data val_data : list (Example spec_float))
    (e : nat) (s s' : State) :
  epoch_body args train_data val_data e s = Ok s' ->
  exists b',
    lowest_validation_loss s' = Some b' /\
    (Float64.is_nan b' = false -> Float64.is_nan (val_loss s') = false ->
     SFleb b' (val_loss s') = true).
Proof.
  intros Hs. apply epoch_body_lowest in Hs.
  destruct (lowest_validation_loss s) as [b|] eqn:Hb.
  - destruct Hs as [[_ Hl]|[Hnlt Hbest]].
    + exists (val_loss s'). split; [exact Hl|]. intros Hv _. apply SFleb_refl, Hv.
    + injection Hbest as Hl _. exists b. split; [congruence|].
      intros Hnb Hnv. apply SFleb_total; assumption.
  - exists (val_loss s'). split; [exact Hs|]. intros Hv _. apply SFleb_refl, Hv.
Qed.

Lemma best_loss_at_most_epoch_loss_witness :
  match epoch_body (X := Demo.dead_network) (Demo.args 2) Demo.data Demo.data 0
          (initial_state (X := Demo.dead_network) ∅ 0) with
  | Ok s' => exists b', lowest_validation_loss s' = Some b'
  | Raise _ => False
  end.
Proof.
  destruct (epoch_body (X := Demo.dead_network) (Demo.args 2) Demo.data Demo.data 0
              (initial_state (X := Demo.dead_network) ∅ 0)) as [s'|err] eqn:Hs;
    [|vm_compute in Hs; discriminate].
  destruct (best_loss_at_most_epoch_loss
              Demo.dead_network (Demo.args 2) Demo.data Demo.data 0 _ s' Hs)
    as (b' & Hb' & _).
  exists b'. exact Hb'.
Defined.

(** ** A best loss that is not a number *)

(** Once the best loss is not a number, no later epoch replaces it, none
    changes the metrics and none writes a checkpoint: every comparison with
    it is false. *)
Theorem nan_best_loss_is_final
    (X : Externals spec_float) (args : Args spec_float)
    (train_data val_data : list (Example spec_float))
    (e : nat) (s s' : State) (b : spec_float) :
  lowest_validation_loss s = Some b ->
  Float64.is_nan b = true ->
  epoch_body args train_data val_data e s = Ok s' ->
  best s' = best s /\ files s' = files s.
Proof.
  intros Hb Hnan Hs.
  pose proof (epoch_body_lowest _ _ _ _ _ _ Hs) as Hl.
  pose proof (epoch_body_writes _ _ _ _ _ _ Hs) as Hw.
  pose proof (epoch_body_outcome _ _ _ _ _ _ Hs) as (_ & _ & _ & Hskip).
  rewrite Hb in Hl. destruct Hl as [[Hlt _]|[_ Hbest]].
  - apply SFltb_not_nan in Hlt as [_ Hlt]. congruence.
  - split; [exact Hbest|]. apply Hskip.
    injection Hbest as Hl _. rewrite Hl, Hb. cbn [save_condition feqb binary64].
    destruct b; try discriminate. reflexivity.
Qed.

Lemma nan_best_loss_is_final_witness :
  match epoch_body (X := Demo.dead_network) (Demo.args 2) Demo.data Demo.data 0
          (set_lowest_validation_loss (Some S754_nan)
             (initial_state (X := Demo.dead_network) ∅ 0)) with
  | Ok s' => lowest_validation_loss s' = Some S754_nan /\ saves s' = []
  | Raise _ => False
  end.
Proof.
  destruct (epoch_body (X := Demo.dead_network) (Demo.args 2) Demo.data Demo.data 0
              (set_lowest_validation_loss (Some S754_nan)
                 (initial_state (X := Demo.dead_network) ∅ 0)))
    as [s'|err] eqn:Hs.
  - destruct (nan_best_loss_is_final
                Demo.dead_network (Demo.args 2) Demo.data Demo.data 0
                (set_lowest_validation_loss (Some S754_nan)
                   (initial_state (X := Demo.dead_network) ∅ 0)) s'
                S754_nan eq_refl eq_refl Hs) as [Hbest Hfiles].
    injection Hbest as Hl _. injection Hfiles as _ Hsv. auto.
  - destruct (demo_completes 2 0
                (set_lowest_validation_loss (Some S754_nan)
                   (initial_state (X := Demo.dead_network) ∅ 0))) as [t Ht].
    rewrite Hs in Ht. discriminate Ht.
Defined.

(** ** An empty validation set *)

(** With an empty validation set no epoch completes: once the training
    pass is through, the validation pass has no batch, and line 179 divides
    the total by [len(val_data) = 0]. *)
Theorem empty_validation_set_raises
    {F : Type} {SF : Scalar F} {X : Externals F} (args : Args F)
    (train_data : list (Example F)) (e : nat) (s : State) :
  train_data <> [] ->
  completes (training args train_data e s) ->
  epoch_body args train_data [] e s = Raise ZeroDivisionError.
Proof.
  intros Hne [sa Ha]. unfold epoch_body. rewrite Ha. cbn [mbind result_bind].
  unfold validation, val_dataloader, batches. cbn [length chunk for_each].
  cbn [mbind result_bind]. unfold losses.
  destruct train_data as [|x rest]; [congruence|]. reflexivity.
Qed.

Lemma empty_validation_set_raises_witness :
  epoch_body (X := Demo.dead_network) (Demo.args 2) Demo.data [] 0
    (initial_state (X := Demo.dead_network) ∅ 0)
  = Raise ZeroDivisionError.
Proof.
  apply empty_validation_set_raises.
  - intros H. discriminate H.
  - eexists. vm_compute. reflexivity.
Defined.

(** ** The files *)

Lemma save_model_other_files {F : Type} {SF : Scalar F} {X : Externals F}
    (args : Args F) (val_data : list (Example F)) (e : nat) (s : State)
    (p : string) :
  p <> model_path_from_name (model_name args val_data) ->
  disk (save_model args val_data e s) !! p = disk s !! p.
Proof.
  intros Hp. unfold save_model.
  destruct (save_condition _ _); [|reflexivity].
  destruct (disk s !! model_path_from_name (model_name args val_data));
    cbn [disk set_disk set_saves].
  - rewrite lookup_insert_ne, lookup_delete_ne by congruence. reflexivity.
  - rewrite lookup_insert_ne by congruence. reflexivity.
Qed.

(** A run touches no file but the one under the model path: every other
    path holds after any number of epochs what it held before. *)
Theorem other_files_untouched
    {F : Type} {SF : Scalar F} {X : Externals F} (args : Args F)
    (train_data val_data : list (Example F)) (disk0 : gmap string Model)
    (n : nat) (m : Model) (s : State) (p : string) :
  p <> model_path_from_name (model_name args val_data) ->
  after_epochs args train_data val_data disk0 n m = Ok s ->
  disk s !! p = disk0 !! p.
Proof.
  intros Hp. revert s. induction n as [|n IH]; intros s Hs.
  - injection Hs as <-. reflexivity.
  - rewrite after_epochs_S in Hs. apply bind_Ok in Hs as (t & Ht & Hs).
    rewrite <- (IH t Ht).
    apply epoch_body_stages in Hs
      as (s1 & s2 & s3 & _ & _ & _ & -> & _ & _ & Hf3 & _).
    rewrite save_model_other_files by exact Hp.
    injection Hf3 as Hd _. rewrite Hd. reflexivity.
Qed.

Lemma other_files_untouched_witness :
  match after_epochs (X := Demo.dead_network) (Demo.args 2) Demo.data Demo.data
          {[ "other.pt"%string := 7 ]} 2 0 with
  | Ok s => disk s !! "other.pt"%string = Some 7
  | Raise _ => False
  end.
Proof.
  destruct (after_epochs (X := Demo.dead_network) (Demo.args 2) Demo.data Demo.data
              {[ "other.pt"%string := 7 ]} 2 0) as [s|err] eqn:Hs;
    [|vm_compute in Hs; discriminate].
  assert (Hne : "other.pt"%string <>
                model_path_from_name (Externals := Demo.dead_network)
                  (model_name (X := Demo.dead_network) (Demo.args 2) Demo.data)).
  { intros H. vm_compute in H. discriminate H. }
  pose proof (other_files_untouched (X := Demo.dead_network)
                (Demo.args 2) Demo.data Demo.data
                {[ "other.pt"%string := 7 ]} 2 0 s "other.pt"%string Hne Hs) as H.
  etransitivity; [exact H|]. apply lookup_singleton_eq.
Defined.

(** Each epoch writes at most once: the epochs in which the checkpoint was
    written are all different, and all are epochs of the run. *)
Theorem one_write_per_epoch
    {F : Type} {SF : Scalar F} {X : Externals F} (args : Args F)
    (train_data val_data : list (Example F)) (disk0 : gmap string Model)
    (n : nat) (m : Model) (s : State) :
  after_epochs args train_data val_data disk0 n m = Ok s ->
  List.NoDup (saves s) /\ Forall (fun k => k < n) (saves s).
Proof.
  revert s. induction n as [|n IH]; intros s Hs.
  - injection Hs as <-. split; constructor.
  - rewrite after_epochs_S in Hs. apply bind_Ok in Hs as (t & Ht & Hs).
    destruct (IH t Ht) as [Hnd Hlt].
    assert (Hlt' : Forall (fun k => k < S n) (saves t)).
    { eapply Forall_impl; [exact Hlt|]. intros k Hk. simpl in Hk. lia. }
    apply epoch_body_saves in Hs as [-> | ->].
    + split; assumption.
    + split.
      * constructor; [|exact Hnd]. intros Hin.
        rewrite List.Forall_forall in Hlt. specialize (Hlt n Hin). lia.
      * constructor; [lia | exact Hlt'].
Qed.

Lemma one_write_per_epoch_witness :
  match after_epochs (X := Demo.dead_network) (Demo.args 2) Demo.data Demo.data ∅ 2 0
  with
  | Ok s => List.NoDup (saves s) /\ Forall (fun k => k < 2) (saves s)
  | Raise _ => False
  end.
Proof.
  destruct (after_epochs (X := Demo.dead_network) (Demo.args 2) Demo.data Demo.data ∅ 2 0)
    as [s|err] eqn:Hs; [|vm_compute in Hs; discriminate].
  exact (one_write_per_epoch (X := Demo.dead_network)
           (Demo.args 2) Demo.data Demo.data ∅ 2 0 s Hs).
Defined.

(** ** Epochs that complete, and what they leave *)



(** The model an epoch leaves is the model its training pass leaves: the
    validation pass, the selection and the saving do not change it. *)
Theorem model_set_by_training
    {F : Type} {SF : Scalar F} {X : Externals F} (args : Args F)
    (train_data val_data : list (Example F)) (e : nat) (s s' : State) :
  epoch_body args train_data val_data e s = Ok s' ->
  exists sa, training args train_data e s = Ok sa /\ model s' = model sa.
Proof.
  unfold epoch_body. intros Hs.
  apply bind_Ok in Hs as (sa & Ha & Hs).
  apply bind_Ok in Hs as (sb & Hb & Hs).
  apply bind_Ok in Hs as (s1 & H1 & Hs).
  apply bind_Ok in Hs as (s2 & H2 & Hs).
  apply bind_Ok in Hs as (s3 & H3 & Hs).
  injection Hs as <-. exists sa. split; [exact Ha|].
  apply validation_frame in Hb as (_ & _ & _ & Hmb & _).
  apply losses_frame in H1 as (_ & _ & _ & Hm1 & _).
  apply update_best_frame in H2 as (_ & _ & Hm2 & _).
  apply log_to_wandb_frame in H3 as (_ & _ & Hm3 & _).
  pose proof (save_model_frame args val_data e s3) as (_ & Hm4 & _).
  congruence.
Qed.

Lemma model_set_by_training_witness :
  match epoch_body (X := Demo.dead_network) (Demo.args 2) Demo.data Demo.data 0
          (initial_state (X := Demo.dead_network) ∅ 0) with
  | Ok s' =>
      exists sa,
        training (X := Demo.dead_network) (Demo.args 2) Demo.data 0
          (initial_state (X := Demo.dead_network) ∅ 0) = Ok sa /\
        model s' = model sa
  | Raise _ => False
  end.
Proof.
  destruct (epoch_body (X := Demo.dead_network) (Demo.args 2) Demo.data Demo.data 0
              (initial_state (X := Demo.dead_network) ∅ 0)) as [s'|err] eqn:Hs.
  - exact (model_set_by_training (X := Demo.dead_network)
             (Demo.args 2) Demo.data Demo.data 0 _ s' Hs).
  - destruct (demo_completes 2 0 (initial_state (X := Demo.dead_network) ∅ 0))
      as [t Ht].
    rewrite Hs in Ht. discriminate Ht.
Defined.

(** ** What is sent to wandb *)



(** ** Rounding the metrics *)


(** ** The validation pass and the batch size *)

Lemma squeeze_dim1_singletons {A B} (f : A -> B) (l : list A) :
  squeeze_dim1 (map (fun a => [f a]) l) = Ok (map f l).
Proof.
  induction l as [|a l IH]; [reflexivity|].
  unfold squeeze_dim1 in *. cbn [map mapM]. rewrite IH. reflexivity.
Qed.

Section ExampleWise.
Context {F : Type} {SF : Scalar F} {X : Externals F}.
Variable net : Model -> bool -> list (list F) -> F.
Hypothesis network : example_wise X net.

(** The scores of a block are the scores of its examples. *)
Lemma forward_example_wise m training (x : list (Example F)) rg ag out ag' :
  forward m training {| data := map input x; requires_grad := rg |} ag
  = Ok (out, ag') ->
  data out = map (score_of net m training) x.
Proof.
  intros Hf. apply forward_data in Hf as (y & z & Hy & Hz & ->).
  rewrite network in Hy. injection Hy as <-.
  rewrite squeeze_dim1_singletons in Hz. injection Hz as <-.
  cbn [data]. unfold rescale, score_of. rewrite !map_map. reflexivity.
Qed.

Lemma val_step_example_wise x s s' :
  val_step x s = Ok s' ->
  y_score s' = y_score s ++ map (score_of net (model s) false) x /\
  y_pred s' =
    y_pred s ++ map threshold (map (score_of net (model s) false) x) /\
  y_true s' = y_true s ++ map label x /\
  model s' = model s /\ best s' = best s /\ files s' = files s /\
  wandb_log s' = wandb_log s /\ total_train_loss s' = total_train_loss s /\
  train_loss s' = train_loss s /\ val_loss s' = val_loss s.
Proof.
  unfold val_step. cbn [collate]. intros Hs.
  apply bind_Ok in Hs as ([outputs ag] & Hf & Hs).
  apply bind_Ok in Hs as (loss & _ & Hs).
  injection Hs as <-. apply forward_example_wise in Hf.
  cbn. rewrite Hf. repeat split; reflexivity.
Qed.

Lemma val_loop_example_wise bs s s' :
  for_each val_step bs s = Ok s' ->
  y_score s' = y_score s ++ map (score_of net (model s) false) (concat bs) /\
  y_pred s' =
    y_pred s ++ map threshold (map (score_of net (model s) false) (concat bs)) /\
  y_true s' = y_true s ++ map label (concat bs) /\
  model s' = model s /\ best s' = best s /\ files s' = files s /\
  wandb_log s' = wandb_log s /\ total_train_loss s' = total_train_loss s /\
  train_loss s' = train_loss s /\ val_loss s' = val_loss s.
Proof.
  revert s. induction bs as [|x bs IH]; intros s Hs; simpl in Hs.
  - injection Hs as <-. simpl. rewrite !app_nil_r. repeat split; reflexivity.
  - apply bind_Ok in Hs as (t & Ht & Hs).
    apply val_step_example_wise in Ht
      as (Hs1 & Hp1 & Ht1 & Hm1 & Hb1 & Hf1 & Hw1 & Htt1 & Htl1 & Hvl1).
    apply IH in Hs
      as (Hs2 & Hp2 & Ht2 & Hm2 & Hb2 & Hf2 & Hw2 & Htt2 & Htl2 & Hvl2).
    cbn [concat]. rewrite !map_app.
    rewrite Hs2, Hp2, Ht2, Hm1, Hs1, Hp1, Ht1, <- !app_assoc.
    repeat split; congruence.
Qed.

End ExampleWise.



(** ** The names of the metrics *)

(** After at least one epoch the metrics that the script prints at its end
    are exactly the five named ones. *)
Theorem metrics_have_five_names
    {F : Type} {SF : Scalar F} {X : Externals F} (args : Args F)
    (train_data val_data : list (Example F)) (disk0 : gmap string Model)
    (n : nat) (m : Model) (s : State) :
  after_epochs args train_data val_data disk0 (S n) m = Ok s ->
  dom (metrics s) = list_to_set metric_names.
Proof.
  revert s. induction n as [|n IH]; intros s Hs;
    rewrite after_epochs_S in Hs; apply bind_Ok in Hs as (t & Ht & Hs).
  - injection Ht as <-.
    destruct (epoch_body_best_metrics _ _ _ _ _ _ Hs eq_refl)
      as (a & f & p & r & u & _ & _ & _ & _ & _ & ->).
    rewrite !dom_insert_L, dom_empty_L. reflexivity.
  - specialize (IH t Ht).
    destruct (selection_rule (lowest_validation_loss t) (val_loss s)) eqn:Hrule.
    + destruct (epoch_body_best_metrics _ _ _ _ _ _ Hs Hrule)
        as (a & f & p & r & u & _ & _ & _ & _ & _ & ->).
      rewrite !dom_insert_L, dom_empty_L. reflexivity.
    + apply epoch_body_outcome in Hs as (_ & Hskip & _).
      specialize (Hskip Hrule). injection Hskip as _ Hm. rewrite Hm. exact IH.
Qed.

Lemma metrics_have_five_names_witness :
  match after_epochs (X := Demo.dead_network) (Demo.args 2) Demo.data Demo.data ∅ 2 0
  with
  | Ok s => dom (metrics s) = list_to_set metric_names
  | Raise _ => False
  end.
Proof.
  destruct (after_epochs (X := Demo.dead_network) (Demo.args 2) Demo.data Demo.data ∅ 2 0)
    as [s|err] eqn:Hs; [|vm_compute in Hs; discriminate].
  exact (metrics_have_five_names (X := Demo.dead_network)
           (Demo.args 2) Demo.data Demo.data ∅ 1 0 s Hs).
Defined.
